(** * E-voting-System: the ballot workflow and the activity-log viewer

    A shallow embedding of the event handlers and effects of
    [src/components/Candidates.tsx] (component [Candidates]) and of the
    activity-log manager (component [ActivityLogManager]), with the
    properties their specification states about them.

    React state is modelled by a record per component, one field per
    [useState] cell.  An event handler is a function on that record; a
    [useEffect] whose only job is to derive one cell from others is a
    function applied after every handler (React re-runs it whenever one of
    its dependencies changed, and re-running it with unchanged dependencies
    recomputes the same value).  What a handler does to the outside world
    (navigation, HTTP requests, timers, downloads) is returned as data. *)

From Stdlib Require Import ZArith Ascii String List Lia Permutation Sorted.
From stdpp Require Import base option list gmap strings pretty fin_maps.

Local Open Scope string_scope.

(** ** JavaScript values and built-ins used by the two components *)
Module JS.

(** The empty string is the only falsy string. *)
Definition truthy (s : string) : bool := negb (String.eqb s EmptyString).

(** [a || b] on possibly-undefined strings, as in
    [candidate.id || candidate._id]. *)
Definition or_else (a b : option string) : option string :=
  match a with
  | Some s => if truthy s then Some s else b
  | None => b
  end.

(** [Array.prototype.join]. *)
Fixpoint join (sep : string) (l : list string) : string :=
  match l with
  | [] => EmptyString
  | [x] => x
  | x :: rest => x ++ sep ++ join sep rest
  end.

(** [String.prototype.toLowerCase], on the ASCII letters. *)
Definition lower_ascii (c : ascii) : ascii :=
  let n := nat_of_ascii c in
  if (65 <=? n)%nat && (n <=? 90)%nat then ascii_of_nat (n + 32) else c.

Fixpoint toLowerCase (s : string) : string :=
  match s with
  | EmptyString => EmptyString
  | String c rest => String (lower_ascii c) (toLowerCase rest)
  end.

(** [s.startsWith(t)] and [s.includes(t)]. *)
Fixpoint startsWith (s t : string) : bool :=
  match t, s with
  | EmptyString, _ => true
  | String _ _, EmptyString => false
  | String b t', String a s' => Ascii.eqb a b && startsWith s' t'
  end.

Fixpoint includes (s t : string) : bool :=
  startsWith s t ||
  match s with
  | EmptyString => false
  | String _ s' => includes s' t
  end.

(** A JavaScript object read as a dictionary whose key order is observable
    ([Object.keys]): its own entries in enumeration order. *)
Definition Obj (V : Type) : Type := list (string * V).

Definition keys {V} (o : Obj V) : list string := o.*1.

Fixpoint get {V} (o : Obj V) (k : string) : option V :=
  match o with
  | [] => None
  | (k', v) :: rest => if String.eqb k' k then Some v else get rest k
  end.

End JS.

(** ** The ballot component, [Candidates.tsx] *)
Module Candidate.

(** [interface Candidate].  The ballot comes from the network, so [id] may
    be missing at run time whatever the interface says; the handlers are
    written for that ([candidate.id || candidate._id], then the empty
    string). *)
Record t : Type := mk {
  id : option string;
  _id : option string;
  name : string;
  position : string;
}.

End Candidate.

Module Candidates.

(** [type CandidatesByPosition]. *)
Definition CandidatesByPosition : Type := JS.Obj (list Candidate.t).

(** The [useState] cells the handlers read or write.  The two selection
    objects are only ever read and written at position names, so they are
    finite maps from position to value; a position named like a member of
    [Object.prototype] is outside this model. *)
Record State : Type := mkState {
  candidatesByPosition : CandidatesByPosition;
  positions : list string;
  selectedCandidateIds : gmap string string;
  noneSelected : gmap string bool;
  error : string;
  unselectedPositions : list string;
  loading : bool;
}.

Definition initial : State :=
  {| candidatesByPosition := [];
     positions := [];
     selectedCandidateIds := ∅;
     noneSelected := ∅;
     error := EmptyString;
     unselectedPositions := [];
     loading := true |}.

(** What [navigate("/confirm-vote", { state })] carries. *)
Record ConfirmState : Type := mkConfirmState {
  selectedCandidates : gmap string Candidate.t;
  confirm_noneSelected : gmap string bool;
}.

Inductive Navigation : Type :=
| Navigate (path : string) (state : ConfirmState).

(** [noneSelected[position]] used as a condition: [undefined] and [false]
    are falsy. *)
Definition flag (o : option bool) : bool :=
  match o with
  | Some b => b
  | None => false
  end.

(** The predicate of the third [useEffect]:
    [selectedCandidateIds[position] === undefined && !noneSelected[position]]. *)
Definition is_unselected (st : State) (position : string) : bool :=
  bool_decide (selectedCandidateIds st !! position = None)
  && negb (flag (noneSelected st !! position)).

(** The third [useEffect]: recompute [unselectedPositions]. *)
Definition useEffect_unselected (st : State) : State :=
  {| candidatesByPosition := candidatesByPosition st;
     positions := positions st;
     selectedCandidateIds := selectedCandidateIds st;
     noneSelected := noneSelected st;
     error := error st;
     unselectedPositions := filter (λ p, is_unselected st p = true) (positions st);
     loading := loading st |}.

(** [handleVote]. *)
Definition candidateId_of (candidate : Candidate.t) : string :=
  default EmptyString
    (JS.or_else (JS.or_else (Candidate.id candidate) (Candidate._id candidate))
                (Some EmptyString)).

Definition handleVote (candidate : Candidate.t) (position : string)
    (st : State) : State :=
  let candidateId := candidateId_of candidate in
  {| candidatesByPosition := candidatesByPosition st;
     positions := positions st;
     selectedCandidateIds := <[position := candidateId]> (selectedCandidateIds st);
     noneSelected := <[position := false]> (noneSelected st);
     error := EmptyString;
     unselectedPositions := unselectedPositions st;
     loading := loading st |}.

(** [handleNoneSelected]. *)
Definition handleNoneSelected (position : string) (st : State) : State :=
  {| candidatesByPosition := candidatesByPosition st;
     positions := positions st;
     selectedCandidateIds := delete position (selectedCandidateIds st);
     noneSelected := <[position := true]> (noneSelected st);
     error := EmptyString;
     unselectedPositions := unselectedPositions st;
     loading := loading st |}.

(** [handleConfirmVote]: the completeness test, ... *)
Definition position_done (st : State) (position : string) : bool :=
  bool_decide (selectedCandidateIds st !! position ≠ None)
  || flag (noneSelected st !! position).

Definition allPositionsSelected (st : State) : bool :=
  forallb (position_done st) (positions st).

(** ... the lookup
    [candidatesByPosition[position]?.find((c) => c.id === candidateId)], ... *)
Definition find_candidate (cbp : CandidatesByPosition)
    (position candidateId : string) : option Candidate.t :=
  JS.get cbp position ≫=
    List.find (λ c, bool_decide (Candidate.id c = Some candidateId)).

(** ... the reducer over [Object.entries(selectedCandidateIds)], ... *)
Definition reducer (cbp : CandidatesByPosition)
    (acc : gmap string Candidate.t) (entry : string * string)
    : gmap string Candidate.t :=
  let '(position, candidateId) := entry in
  match find_candidate cbp position candidateId with
  | Some candidate => <[position := candidate]> acc
  | None => acc
  end.

Definition validSelectedCandidates (st : State) : gmap string Candidate.t :=
  foldl (reducer (candidatesByPosition st)) ∅
        (map_to_list (selectedCandidateIds st)).

Definition incomplete_message (names : list string) : string :=
  "Please make a selection for each position: " ++ JS.join ", " names.

(** ... and the handler itself. *)
Definition handleConfirmVote (st : State) : State * option Navigation :=
  if allPositionsSelected st then
    (st,
     Some (Navigate "/confirm-vote"
             {| selectedCandidates := validSelectedCandidates st;
                confirm_noneSelected := noneSelected st |}))
  else
    ({| candidatesByPosition := candidatesByPosition st;
        positions := positions st;
        selectedCandidateIds := selectedCandidateIds st;
        noneSelected := noneSelected st;
        error := incomplete_message (unselectedPositions st);
        unselectedPositions := unselectedPositions st;
        loading := loading st |},
     None).

(** [handleRefresh].  The click sets [loading]; the promise settles later
    with the response body ([response.data], possibly [null]) or a
    rejection. *)
Inductive Response : Type :=
| Fulfilled (data : option CandidatesByPosition)
| Rejected.

Definition handleRefresh_click (st : State) : State :=
  {| candidatesByPosition := candidatesByPosition st;
     positions := positions st;
     selectedCandidateIds := selectedCandidateIds st;
     noneSelected := noneSelected st;
     error := error st;
     unselectedPositions := unselectedPositions st;
     loading := true |}.

(** The two branches of the [then] callback and the [catch] callback, each
    followed by [finally]. *)
Definition refresh_empty (st : State) : State :=
  {| candidatesByPosition := [];
     positions := [];
     selectedCandidateIds := selectedCandidateIds st;
     noneSelected := noneSelected st;
     error := "No candidates available for your voter group.";
     unselectedPositions := unselectedPositions st;
     loading := false |}.

Definition refresh_loaded (data : CandidatesByPosition) (st : State) : State :=
  {| candidatesByPosition := data;
     positions := JS.keys data;
     selectedCandidateIds := selectedCandidateIds st;
     noneSelected := noneSelected st;
     error := EmptyString;
     unselectedPositions := unselectedPositions st;
     loading := false |}.

Definition refresh_failed (st : State) : State :=
  {| candidatesByPosition := candidatesByPosition st;
     positions := positions st;
     selectedCandidateIds := selectedCandidateIds st;
     noneSelected := noneSelected st;
     error := "Failed to refresh candidates. Please try again.";
     unselectedPositions := unselectedPositions st;
     loading := false |}.

(** The test is [!response.data || !Object.keys(response.data).length]. *)
Definition handleRefresh_settled (r : Response) (st : State) : State :=
  match r with
  | Fulfilled None => refresh_empty st
  | Fulfilled (Some data) =>
      if bool_decide (length (JS.keys data) = 0%nat) then refresh_empty st
      else refresh_loaded data st
  | Rejected => refresh_failed st
  end.

(** The component as a transition system: one user or network event, then
    the effect. *)
Inductive Event : Type :=
| Vote (candidate : Candidate.t) (position : string)
| NoneSelected (position : string)
| ConfirmVote
| RefreshClick
| RefreshSettled (r : Response).

Definition handle (ev : Event) (st : State) : State :=
  match ev with
  | Vote c p => handleVote c p st
  | NoneSelected p => handleNoneSelected p st
  | ConfirmVote => (handleConfirmVote st).1
  | RefreshClick => handleRefresh_click st
  | RefreshSettled r => handleRefresh_settled r st
  end.

Definition step (st : State) (ev : Event) : State :=
  useEffect_unselected (handle ev st).

Definition run (st : State) (evs : list Event) : State := foldl step st evs.

(** The effect has run since the cells it reads last changed. *)
Definition settled (st : State) : Prop :=
  unselectedPositions st
  = filter (λ p, is_unselected st p = true) (positions st).

(** No position is both selected and abstained. *)
Definition exclusive (st : State) : Prop :=
  ∀ position : string,
    ¬ (is_Some (selectedCandidateIds st !! position)
       ∧ noneSelected st !! position = Some true).

(** The reading of the specification under which a manual refresh resets
    the voter's choices: after the click and a successful response, both
    maps are empty. *)
Definition refresh_resets (st : State) (data : option CandidatesByPosition)
    : Prop :=
  let st' := run st [RefreshClick; RefreshSettled (Fulfilled data)] in
  selectedCandidateIds st' = ∅ ∧ noneSelected st' = ∅.

End Candidates.

(** ** [Array.prototype.sort] and [Date] *)
Module JSArray.
Local Open Scope Z_scope.

Section Sort.
Context {A : Type}.

(** The comparator's result; [None] is [NaN], which [sort] reads as [+0]. *)
Variable comparefn : A → A → option Z.

(** [x] may stay in front of [y]. *)
Definition keeps_order (x y : A) : bool :=
  match comparefn x y with
  | Some v => v <=? 0
  | None => true
  end.

Fixpoint insert (x : A) (l : list A) : list A :=
  match l with
  | [] => [x]
  | y :: rest => if keeps_order x y then x :: l else y :: insert x rest
  end.

(** [sort] is stable (ECMAScript 2019), so with a consistent comparator its
    result is the one ordered arrangement that keeps equal elements in
    their original order; insertion from the right computes it. *)
Definition sort (l : list A) : list A := foldr insert [] l.

End Sort.
End JSArray.

Module JSDate.
Local Open Scope Z_scope.

Definition msPerSecond : Z := 1000.
Definition msPerMinute : Z := 60000.
Definition msPerHour : Z := 3600000.
Definition msPerDay : Z := 86400000.

(** The time value of a [Date]: milliseconds since the epoch, UTC; [None]
    is [NaN], the Invalid Date. *)
Definition TimeValue : Type := option Z.

Definition Day (t : Z) : Z := t / msPerDay.
Definition msFromTime (t : Z) : Z := t mod msPerSecond.

Definition MakeTime (hour min sec ms : Z) : Z :=
  hour * msPerHour + min * msPerMinute + sec * msPerSecond + ms.

Definition MakeDate (day time : Z) : Z := day * msPerDay + time.

(** [date.setHours(hour, min, sec)] where local time is UTC plus the
    constant offset [tza] (milliseconds, positive east of Greenwich): the
    hour, minute and second of the local calendar day of [date] are
    replaced, the milliseconds kept. *)
Definition setHours (tza : Z) (hour min sec : Z) (date : TimeValue) : TimeValue :=
  match date with
  | None => None
  | Some t =>
      let local := t + tza in
      Some (MakeDate (Day local) (MakeTime hour min sec (msFromTime local)) - tza)
  end.

(** [a <= b] and [a >= b] on dates; a comparison with [NaN] is false. *)
Definition le (a b : TimeValue) : bool :=
  match a, b with
  | Some x, Some y => x <=? y
  | _, _ => false
  end.

Definition ge (a b : TimeValue) : bool := le b a.

(** *** The ECMAScript date-time string format

    [YYYY-MM-DD], read as midnight UTC, which is what [<input type="date">]
    produces, and [YYYY-MM-DDTHH:mm:ss.sssZ], which is what [toISOString]
    and a JSON-serialised date produce. *)
Definition digit (c : ascii) : option Z :=
  let n := Z.of_nat (nat_of_ascii c) in
  if (48 <=? n) && (n <=? 57) then Some (n - 48) else None.

Definition number (cs : list ascii) : option Z :=
  foldl (λ acc c, a ← acc; d ← digit c; Some (10 * a + d)) (Some 0) cs.

Definition InLeapYear (y : Z) : bool :=
  ((y mod 4 =? 0) && negb (y mod 100 =? 0)) || (y mod 400 =? 0).

Definition DayFromYear (y : Z) : Z :=
  365 * (y - 1970) + (y - 1969) / 4 - (y - 1901) / 100 + (y - 1601) / 400.

Definition DaysInMonth (y m : Z) : Z :=
  if m =? 2 then (if InLeapYear y then 29 else 28)
  else if (m =? 4) || (m =? 6) || (m =? 9) || (m =? 11) then 30
  else 31.

Definition DaysBeforeMonth (y m : Z) : Z :=
  foldr (λ k acc, DaysInMonth y (Z.of_nat k) + acc) 0 (seq 1 (Z.to_nat (m - 1))).

Definition MakeDay (y m d : Z) : Z := DayFromYear y + DaysBeforeMonth y m + d - 1.

Definition is_char (c : ascii) (code : nat) : bool :=
  Nat.eqb (nat_of_ascii c) code.

Definition parse_date (cs : list ascii) : option (Z * list ascii) :=
  match cs with
  | y1 :: y2 :: y3 :: y4 :: s1 :: m1 :: m2 :: s2 :: d1 :: d2 :: rest =>
      y ← number [y1; y2; y3; y4];
      m ← number [m1; m2];
      d ← number [d1; d2];
      if is_char s1 45 && is_char s2 45
         && (1 <=? m) && (m <=? 12) && (1 <=? d) && (d <=? DaysInMonth y m)
      then Some (MakeDay y m d, rest)
      else None
  | _ => None
  end.

Definition parse_time (cs : list ascii) : option Z :=
  match cs with
  | [h1; h2; c1; m1; m2; c2; s1; s2; dot; f1; f2; f3; z] =>
      h ← number [h1; h2];
      m ← number [m1; m2];
      s ← number [s1; s2];
      ms ← number [f1; f2; f3];
      if is_char c1 58 && is_char c2 58 && is_char dot 46 && is_char z 90
         && (h <=? 23) && (m <=? 59) && (s <=? 59)
      then Some (MakeTime h m s ms)
      else None
  | _ => None
  end.

(** [new Date(s)] on these two shapes; any other string is taken to be an
    Invalid Date. *)
Definition parse (s : string) : TimeValue :=
  '(day, rest) ← parse_date (list_ascii_of_string s);
  match rest with
  | [] => Some (MakeDate day 0)
  | t :: rest' =>
      if is_char t 84 then time ← parse_time rest'; Some (MakeDate day time)
      else None
  end.

End JSDate.

(** ** The activity-log viewer, [ActivityLogManager] *)
Module User.

(** [ActivityLog.user]; [role] is the role's name. *)
Record t : Type := mk {
  _id : string;
  username : string;
  fullName : string;
  role : option string;
}.

End User.

Module ActivityLog.

(** [interface ActivityLog]. *)
Record t : Type := mk {
  _id : string;
  userId : string;
  user : option User.t;
  action : string;
  entity : string;
  entityId : string;
  details : string;
  ipAddress : string;
  timestamp : string;
}.

End ActivityLog.

Module Filters.

Record t : Type := mk {
  user : string;
  action : string;
  entity : string;
  fromDate : string;
  toDate : string;
}.

Definition cleared : t :=
  {| user := EmptyString; action := EmptyString; entity := EmptyString;
     fromDate := EmptyString; toDate := EmptyString |}.

(** The names [handleFilterChange] is called with. *)
Inductive Name : Type := User | Action | Entity | FromDate | ToDate.

(** [{ ...filters, [name]: value }]. *)
Definition set (name : Name) (value : string) (f : t) : t :=
  match name with
  | User => mk value (action f) (entity f) (fromDate f) (toDate f)
  | Action => mk (user f) value (entity f) (fromDate f) (toDate f)
  | Entity => mk (user f) (action f) value (fromDate f) (toDate f)
  | FromDate => mk (user f) (action f) (entity f) value (toDate f)
  | ToDate => mk (user f) (action f) (entity f) (fromDate f) value
  end.

End Filters.

Module ActivityLogManager.

Inductive NotificationType : Type := success | error_type.

Record Notification : Type := mkNotification {
  type : NotificationType;
  message : string;
}.

Record State : Type := mkState {
  logs : list ActivityLog.t;
  filteredLogs : list ActivityLog.t;
  searchTerm : string;
  isLoading : bool;
  error : option string;
  notification : option Notification;
  showFilters : bool;
  filters : Filters.t;
}.

Definition initial : State :=
  {| logs := []; filteredLogs := []; searchTerm := EmptyString;
     isLoading := false; error := None; notification := None;
     showFilters := false; filters := Filters.cleared |}.

(** The setters, one per cell. *)
Definition setLogs (v : list ActivityLog.t) (st : State) : State :=
  mkState v (filteredLogs st) (searchTerm st) (isLoading st) (error st)
          (notification st) (showFilters st) (filters st).
Definition setFilteredLogs (v : list ActivityLog.t) (st : State) : State :=
  mkState (logs st) v (searchTerm st) (isLoading st) (error st)
          (notification st) (showFilters st) (filters st).
Definition setSearchTerm (v : string) (st : State) : State :=
  mkState (logs st) (filteredLogs st) v (isLoading st) (error st)
          (notification st) (showFilters st) (filters st).
Definition setIsLoading (v : bool) (st : State) : State :=
  mkState (logs st) (filteredLogs st) (searchTerm st) v (error st)
          (notification st) (showFilters st) (filters st).
Definition setError (v : option string) (st : State) : State :=
  mkState (logs st) (filteredLogs st) (searchTerm st) (isLoading st) v
          (notification st) (showFilters st) (filters st).
Definition setNotification (v : option Notification) (st : State) : State :=
  mkState (logs st) (filteredLogs st) (searchTerm st) (isLoading st) (error st)
          v (showFilters st) (filters st).
Definition setShowFilters (v : bool) (st : State) : State :=
  mkState (logs st) (filteredLogs st) (searchTerm st) (isLoading st) (error st)
          (notification st) v (filters st).
Definition setFilters (v : Filters.t) (st : State) : State :=
  mkState (logs st) (filteredLogs st) (searchTerm st) (isLoading st) (error st)
          (notification st) (showFilters st) v.

(** What a handler asks of the browser. *)
Inductive Timer : Type :=
| ClearNotification.

Inductive Effect : Type :=
| Confirm (question : string)
| Fetch (method url : string)
| ConsoleError (label : string)
| SetTimeout (callback : Timer) (delay : Z)
| Download (filename content : string).

(** How a [fetch] ended: a response with [ok], a response with a status
    outside 200-299, or a rejected promise with the error's message. *)
Inductive Outcome (A : Type) : Type :=
| Ok (data : A)
| NotOk (status : Z)
| Threw (reason : string).
Arguments Ok {A} data.
Arguments NotOk {A} status.
Arguments Threw {A} reason.

(** [error.message || fallback] for the error a failed request raises. *)
Definition error_message {A} (what fallback : string) (r : Outcome A) : string :=
  let message :=
    match r with
    | Ok _ => EmptyString
    | NotOk status => what ++ pretty status
    | Threw reason => reason
    end in
  if JS.truthy message then message else fallback.

Definition dquote : string := String "034"%char EmptyString.
Definition newline : string := String "010"%char EmptyString.

(** The global replacement of every double quote by two, as
    [log.details.replace] does with its quote pattern. *)
Fixpoint escape_quotes (s : string) : string :=
  match s with
  | EmptyString => EmptyString
  | String c rest =>
      if Ascii.eqb c "034"%char then dquote ++ dquote ++ escape_quotes rest
      else String c (escape_quotes rest)
  end.

(** The inverse reading a CSV parser applies inside a quoted field. *)
Fixpoint unescape_quotes (s : string) : string :=
  match s with
  | EmptyString => EmptyString
  | String c rest =>
      String c
        match rest with
        | EmptyString => EmptyString
        | String c' rest' =>
            if Ascii.eqb c "034"%char && Ascii.eqb c' "034"%char
            then unescape_quotes rest'
            else unescape_quotes rest
        end
  end.

Fixpoint count_newlines (s : string) : nat :=
  match s with
  | EmptyString => 0
  | String c rest =>
      (if Ascii.eqb c "010"%char then 1 else 0) + count_newlines rest
  end.

Section Component.

(** [hasPermission("logs", "view")] and [hasPermission("logs", "delete")]. *)
Variable canViewLogs canDeleteLogs : bool.

(** [import.meta.env.VITE_API_URL], or the localhost default. *)
Variable apiUrl : string.

(** The browser: its time-zone offset in milliseconds, [new Date(s)] and
    [new Date(s).toLocaleString()]. *)
Variable tza : Z.
Variable Date_parse : string → JSDate.TimeValue.
Variable formatTimestamp : string → string.

(** *** The filtering effect *)

(** The predicate of the search filter, [term] being the lower-cased
    search term. *)
Definition matches_search (term : string) (log : ActivityLog.t) : bool :=
  match ActivityLog.user log with
  | Some u =>
      JS.truthy (User.username u)
      && JS.includes (JS.toLowerCase (User.username u)) term
  | None => false
  end
  || match ActivityLog.user log with
     | Some u =>
         JS.truthy (User.fullName u)
         && JS.includes (JS.toLowerCase (User.fullName u)) term
     | None => false
     end
  || JS.includes (JS.toLowerCase (ActivityLog.action log)) term
  || JS.includes (JS.toLowerCase (ActivityLog.entity log)) term
  || JS.includes (JS.toLowerCase (ActivityLog.details log)) term.

(** [log.user?.username === filters.user || log.user?.fullName === filters.user]. *)
Definition by_user (who : string) (log : ActivityLog.t) : bool :=
  match ActivityLog.user log with
  | Some u => String.eqb (User.username u) who || String.eqb (User.fullName u) who
  | None => false
  end.

Definition by_action (what : string) (log : ActivityLog.t) : bool :=
  String.eqb (ActivityLog.action log) what.

Definition by_entity (what : string) (log : ActivityLog.t) : bool :=
  String.eqb (ActivityLog.entity log) what.

(** [new Date(log.timestamp) >= fromDate]. *)
Definition from_date (fromDate : string) (log : ActivityLog.t) : bool :=
  JSDate.ge (Date_parse (ActivityLog.timestamp log)) (Date_parse fromDate).

(** [toDate.setHours(23, 59, 59)], then [new Date(log.timestamp) <= toDate]. *)
Definition end_of_day (toDate : string) : JSDate.TimeValue :=
  JSDate.setHours tza 23 59 59 (Date_parse toDate).

Definition to_date (toDate : string) (log : ActivityLog.t) : bool :=
  JSDate.le (Date_parse (ActivityLog.timestamp log)) (end_of_day toDate).

(** The comparator of the sort:
    [new Date(b.timestamp).getTime() - new Date(a.timestamp).getTime()]. *)
Definition newest_first (a b : ActivityLog.t) : option Z :=
  tb ← Date_parse (ActivityLog.timestamp b);
  ta ← Date_parse (ActivityLog.timestamp a);
  Some (tb - ta)%Z.

(** The body of the effect after its guard: what [filtered] holds when it
    is handed to [setFilteredLogs]. *)
Definition applyFilters (all : list ActivityLog.t) (search : string)
    (f : Filters.t) : list ActivityLog.t :=
  let filtered := all in
  let filtered :=
    if JS.truthy search then
      let term := JS.toLowerCase search in
      List.filter (matches_search term) filtered
    else filtered in
  let filtered :=
    if JS.truthy (Filters.user f)
    then List.filter (by_user (Filters.user f)) filtered else filtered in
  let filtered :=
    if JS.truthy (Filters.action f)
    then List.filter (by_action (Filters.action f)) filtered else filtered in
  let filtered :=
    if JS.truthy (Filters.entity f)
    then List.filter (by_entity (Filters.entity f)) filtered else filtered in
  let filtered :=
    if JS.truthy (Filters.fromDate f)
    then List.filter (from_date (Filters.fromDate f)) filtered else filtered in
  let filtered :=
    if JS.truthy (Filters.toDate f)
    then List.filter (to_date (Filters.toDate f)) filtered else filtered in
  JSArray.sort newest_first filtered.

(** The second [useEffect], with its guard [if (!logs.length) return]. *)
Definition useEffect_filter (st : State) : State :=
  if bool_decide (length (logs st) = 0%nat) then st
  else setFilteredLogs (applyFilters (logs st) (searchTerm st) (filters st)) st.

(** *** The pipeline as the specification words it

    Free-text search: some field among username, fullName, action, entity
    and details contains the term, case ignored. *)
Definition spec_search (search : string) (log : ActivityLog.t) : bool :=
  existsb (λ field, JS.includes (JS.toLowerCase field) (JS.toLowerCase search))
    (match ActivityLog.user log with
     | Some u => [User.username u; User.fullName u]
     | None => []
     end
     ++ [ActivityLog.action log; ActivityLog.entity log; ActivityLog.details log])%list.

(** Structured filters: each one that is set must hold. *)
Definition when_set (value : string) (test : string → ActivityLog.t → bool)
    (log : ActivityLog.t) : bool :=
  negb (JS.truthy value) || test value log.

Definition spec_structured (f : Filters.t) (log : ActivityLog.t) : bool :=
  when_set (Filters.user f) by_user log
  && when_set (Filters.action f) by_action log
  && when_set (Filters.entity f) by_entity log
  && when_set (Filters.fromDate f) from_date log
  && when_set (Filters.toDate f) to_date log.

(** Search, then structured filters, then newest first. *)
Definition spec_pipeline (all : list ActivityLog.t) (search : string)
    (f : Filters.t) : list ActivityLog.t :=
  JSArray.sort newest_first
    (List.filter (spec_structured f) (List.filter (spec_search search) all)).

(** What the pipeline keeps is decided entry by entry. *)
Definition kept (search : string) (f : Filters.t) (log : ActivityLog.t) : bool :=
  spec_search search log && spec_structured f log.

(** The invariant of the viewer: the displayed list is the pipeline applied
    to the full list under the current search term and filters. *)
Definition in_sync (st : State) : Prop :=
  filteredLogs st = spec_pipeline (logs st) (searchTerm st) (filters st).

(** Newest first: [a] may precede [b] when both timestamps are valid and
    [a]'s is not the earlier one. *)
Definition not_older (a b : ActivityLog.t) : Prop :=
  ∃ ta tb, Date_parse (ActivityLog.timestamp a) = Some ta
           ∧ Date_parse (ActivityLog.timestamp b) = Some tb
           ∧ (tb ≤ ta)%Z.

Definition valid_timestamp (log : ActivityLog.t) : Prop :=
  is_Some (Date_parse (ActivityLog.timestamp log)).

(** *** Loading and clearing *)

(** [fetchLogs].  What follows the [await] only calls setters with values
    that do not depend on the cells, so the handler is taken in one step
    with the outcome of the request as an argument. *)
Definition fetchLogs (response : Outcome (list ActivityLog.t)) (st : State)
    : State * list Effect :=
  if negb canViewLogs then (st, [])
  else
    let st := setError None (setIsLoading true st) in
    let request := Fetch "GET" (apiUrl ++ "/api/logs") in
    match response with
    | Ok data =>
        (setIsLoading false (setFilteredLogs data (setLogs data st)), [request])
    | _ =>
        (setIsLoading false
           (setError
              (Some (error_message "Failed to fetch logs: "
                       "Failed to load activity logs" response)) st),
         [request; ConsoleError "Error fetching activity logs:"])
    end.

Definition handleFilterChange (name : Filters.Name) (value : string)
    (st : State) : State :=
  setFilters (Filters.set name value (filters st)) st.

Definition handleClearFilters (st : State) : State :=
  setSearchTerm EmptyString (setFilters Filters.cleared st).

(** [handleClearLogs], with the answer to [window.confirm] and the outcome
    of the DELETE request as arguments. *)
Definition handleClearLogs (confirmed : bool) (response : Outcome unit)
    (st : State) : State * list Effect :=
  if negb canDeleteLogs then (st, [])
  else
    let question :=
      Confirm "Are you sure you want to clear all activity logs? This action cannot be undone." in
    if negb confirmed then (st, [question])
    else
      let st := setIsLoading true st in
      let request := Fetch "DELETE" (apiUrl ++ "/api/logs/clear") in
      let timer := SetTimeout ClearNotification 3000 in
      match response with
      | Ok _ =>
          (setIsLoading false
             (setNotification
                (Some {| type := success;
                         message := "All activity logs have been cleared successfully" |})
                (setFilteredLogs [] (setLogs [] st))),
           [question; request; timer])
      | _ =>
          (setIsLoading false
             (setNotification
                (Some {| type := error_type;
                         message := error_message "Failed to clear logs: "
                                      "Failed to clear activity logs" response |})
                st),
           [question; request; ConsoleError "Error clearing logs:"; timer])
      end.

(** The callback handed to [setTimeout]. *)
Definition fire (t : Timer) (st : State) : State :=
  match t with
  | ClearNotification => setNotification None st
  end.

(** *** CSV export *)
Definition csv_header : string :=
  "Time,User,Role,Action,Entity,Details,IP Address" ++ newline.

Definition shown_user (log : ActivityLog.t) : string :=
  match ActivityLog.user log with
  | Some u => if JS.truthy (User.fullName u) then User.fullName u else User.username u
  | None => "Unknown"
  end.

Definition shown_role (log : ActivityLog.t) : string :=
  match ActivityLog.user log with
  | Some u => default EmptyString (User.role u)
  | None => EmptyString
  end.

(** The template literal appended for one entry. *)
Definition csv_line (log : ActivityLog.t) : string :=
  let escapedDetails := escape_quotes (ActivityLog.details log) in
  dquote ++ formatTimestamp (ActivityLog.timestamp log) ++ dquote ++ ","
  ++ dquote ++ shown_user log ++ dquote ++ ","
  ++ dquote ++ shown_role log ++ dquote ++ ","
  ++ dquote ++ ActivityLog.action log ++ dquote ++ ","
  ++ dquote ++ ActivityLog.entity log ++ dquote ++ ","
  ++ dquote ++ escapedDetails ++ dquote ++ ","
  ++ dquote ++ ActivityLog.ipAddress log ++ dquote ++ newline.

Definition csvContent (shown : list ActivityLog.t) : string :=
  foldl (λ csv log, csv ++ csv_line log) csv_header shown.

(** [handleExport]; [today] is [new Date().toISOString().split("T")[0]]. *)
Definition handleExport (today : string) (st : State) : State * list Effect :=
  (st, [Download ("activity_logs_" ++ today ++ ".csv") (csvContent (filteredLogs st))]).

(** The fields of a CSV row, in column order, as the specification lists
    them: every one quoted, [details] with its quotes doubled. *)
Definition csv_fields (log : ActivityLog.t) : list string :=
  [formatTimestamp (ActivityLog.timestamp log); shown_user log; shown_role log;
   ActivityLog.action log; ActivityLog.entity log;
   escape_quotes (ActivityLog.details log); ActivityLog.ipAddress log].

Definition quoted (field : string) : string := dquote ++ field ++ dquote.

Definition spec_csv_row (log : ActivityLog.t) : string :=
  JS.join "," (map quoted (csv_fields log)) ++ newline.

(** The text of a file made of the given lines, one after the other. *)
Definition lines_text (rows : list string) : string :=
  foldr String.append EmptyString rows.

(** No line break in any column of the entry. *)
Definition single_line (log : ActivityLog.t) : Prop :=
  Forall (λ field, count_newlines field = 0%nat) (csv_fields log).

(** *** What is rendered *)
Inductive View : Type :=
| AccessRestricted
| Page (clearAllLogsButton : bool) (banner : option Notification)
       (rows : list ActivityLog.t).

Definition render (st : State) : View :=
  if negb canViewLogs then AccessRestricted
  else Page canDeleteLogs (notification st) (filteredLogs st).

Definition shows_clear_button (v : View) : bool :=
  match v with
  | AccessRestricted => false
  | Page button _ _ => button
  end.

(** *** The component as a transition system *)
Inductive Event : Type :=
| Mounted (response : Outcome (list ActivityLog.t))
| SearchInput (value : string)
| FilterChange (name : Filters.Name) (value : string)
| ClearFilters
| ToggleFilters
| ClearLogsClick (confirmed : bool) (response : Outcome unit)
| TimerFired (t : Timer)
| DismissNotification
| ExportClick (today : string).

Definition handle (ev : Event) (st : State) : State * list Effect :=
  match ev with
  | Mounted response => fetchLogs response st
  | SearchInput value => (setSearchTerm value st, [])
  | FilterChange name value => (handleFilterChange name value st, [])
  | ClearFilters => (handleClearFilters st, [])
  | ToggleFilters => (setShowFilters (negb (showFilters st)) st, [])
  | ClearLogsClick confirmed response => handleClearLogs confirmed response st
  | TimerFired t => (fire t st, [])
  | DismissNotification => (setNotification None st, [])
  | ExportClick today => handleExport today st
  end.

Definition step (st : State) (ev : Event) : State :=
  useEffect_filter (handle ev st).1.

Definition run (st : State) (evs : list Event) : State := foldl step st evs.

(** The events by which the user relaxes the current filtering: emptying
    the search box, resetting one filter, resetting everything. *)
Definition relaxing (ev : Event) : bool :=
  match ev with
  | SearchInput value => negb (JS.truthy value)
  | FilterChange _ value => negb (JS.truthy value)
  | ClearFilters => true
  | _ => false
  end.

End Component.

End ActivityLogManager.

(** ** A small election, used to run the handlers on concrete data *)
Module Demo.
Import Candidates.

Definition alice : Candidate.t :=
  {| Candidate.id := Some "c1"; Candidate._id := None;
     Candidate.name := "Alice"; Candidate.position := "President" |}.

Definition bob : Candidate.t :=
  {| Candidate.id := Some "c2"; Candidate._id := None;
     Candidate.name := "Bob"; Candidate.position := "President" |}.

Definition carol : Candidate.t :=
  {| Candidate.id := Some "c3"; Candidate._id := None;
     Candidate.name := "Carol"; Candidate.position := "Secretary" |}.

(** A candidate record that reached the client with no identifier. *)
Definition nameless : Candidate.t :=
  {| Candidate.id := None; Candidate._id := None;
     Candidate.name := "Dan"; Candidate.position := "Secretary" |}.

Definition ballot : CandidatesByPosition :=
  [("President", [alice; bob]); ("Secretary", [carol])].

(** The same election after Alice withdrew. *)
Definition ballot_without_alice : CandidatesByPosition :=
  [("President", [bob]); ("Secretary", [carol])].

(** The ballot has been loaded. *)
Definition loaded : State :=
  run initial [RefreshClick; RefreshSettled (Fulfilled (Some ballot))].

(** The voter chose Alice for President and nothing yet for Secretary. *)
Definition half_voted : State := run loaded [Vote alice "President"].

(** The voter chose Alice for President and abstained for Secretary. *)
Definition fully_voted : State :=
  run half_voted [NoneSelected "Secretary"].

(** An audit trail of two entries, the first with quotes in its details. *)
Definition admin : User.t :=
  {| User._id := "u1"; User.username := "admin";
     User.fullName := "Ama Mensah"; User.role := Some "Administrator" |}.

Definition noon_entry : ActivityLog.t :=
  {| ActivityLog._id := "l1"; ActivityLog.userId := "u1";
     ActivityLog.user := Some admin;
     ActivityLog.action := "CREATE"; ActivityLog.entity := "Voter";
     ActivityLog.entityId := "v7";
     ActivityLog.details :=
       "Added voter " ++ ActivityLogManager.dquote ++ "Kofi"
       ++ ActivityLogManager.dquote;
     ActivityLog.ipAddress := "10.0.0.5";
     ActivityLog.timestamp := "2025-01-15T12:00:00.000Z" |}.

Definition earlier_entry : ActivityLog.t :=
  {| ActivityLog._id := "l2"; ActivityLog.userId := "u9";
     ActivityLog.user := None;
     ActivityLog.action := "DELETE"; ActivityLog.entity := "Candidate";
     ActivityLog.entityId := "c2";
     ActivityLog.details := "Removed candidate";
     ActivityLog.ipAddress := "10.0.0.6";
     ActivityLog.timestamp := "2025-01-14T08:30:00.000Z" |}.

Definition trail : list ActivityLog.t := [earlier_entry; noon_entry].

(** Two browsers: one on UTC (Accra), one five hours behind (Bogota). *)
Definition accra : Z := 0.
Definition bogota : Z := -18000000.

(** The viewer of an administrator with both permissions, after the logs
    have loaded. *)
Definition viewer (tza : Z) : ActivityLogManager.State :=
  ActivityLogManager.run true true "http://localhost:5000" tza JSDate.parse
    (λ timestamp, timestamp)
    ActivityLogManager.initial [ActivityLogManager.Mounted (ActivityLogManager.Ok trail)].

Definition only_to (day : string) : Filters.t :=
  Filters.set Filters.ToDate day Filters.cleared.

End Demo.

(** ** The rest of the ballot component: search, cards, loading on mount *)
Module JSObject.

(** [o[k] = v]: an existing key keeps its place, a new one goes last. *)
Fixpoint set {V} (o : JS.Obj V) (k : string) (v : V) : JS.Obj V :=
  match o with
  | [] => [(k, v)]
  | (k', v') :: rest =>
      if String.eqb k' k then (k', v) :: rest else (k', v') :: set rest k v
  end.

End JSObject.

Module CandidatesView.
Import Candidates.

(** The predicate of the search box:
    [candidate.name.toLowerCase().includes(searchTerm.toLowerCase()) ||
     position.toLowerCase().includes(searchTerm.toLowerCase())]. *)
Definition search_matches (searchTerm position : string)
    (candidate : Candidate.t) : bool :=
  JS.includes (JS.toLowerCase (Candidate.name candidate)) (JS.toLowerCase searchTerm)
  || JS.includes (JS.toLowerCase position) (JS.toLowerCase searchTerm).

Definition search_reducer (searchTerm : string) (acc : CandidatesByPosition)
    (entry : string * list Candidate.t) : CandidatesByPosition :=
  let '(position, candidates) := entry in
  let filtered := List.filter (search_matches searchTerm position) candidates in
  if (0 <? length filtered)%nat then JSObject.set acc position filtered else acc.

(** [filteredCandidates]; [searchTerm] is the content of the search box. *)
Definition filteredCandidates (searchTerm : string)
    (cbp : CandidatesByPosition) : CandidatesByPosition :=
  if JS.truthy searchTerm then foldl (search_reducer searchTerm) [] cbp
  else cbp.

(** What a candidate card and the none-of-the-listed card of a position
    show: [isSelected] is
    [selectedCandidateIds[position] === candidateId], the none card is
    highlighted on [noneSelected[position]]. *)
Definition isSelected (st : State) (position : string)
    (candidate : Candidate.t) : bool :=
  bool_decide (selectedCandidateIds st !! position = Some (candidateId_of candidate)).

Definition noneHighlighted (st : State) (position : string) : bool :=
  flag (noneSelected st !! position).

(** The ids stored by [handleVote] are told apart within one list. *)
Definition distinct_ids (candidates : list Candidate.t) : Prop :=
  NoDup (map Candidate.id candidates).

(** What the search shows of one entry of the ballot: the position with
    the candidates that match, or nothing when none does. *)
Definition shown_entry (searchTerm : string) (entry : string * list Candidate.t)
    : CandidatesByPosition :=
  let filtered :=
    List.filter (search_matches searchTerm entry.1) entry.2 in
  if (0 <? length filtered)%nat then [(entry.1, filtered)] else [].

(** The Refresh Candidates button, the only caller of [handleRefresh],
    sits in the no-candidates notice, which is rendered on
    [!loading && Object.keys(candidatesByPosition).length === 0]. *)
Definition refresh_offered (st : State) : bool :=
  negb (loading st)
  && bool_decide (length (JS.keys (candidatesByPosition st)) = 0%nat).

End CandidatesView.

Module CandidatesMount.
Import Candidates.

(** What the two mount effects ask of the browser. *)
Inductive Effect : Type :=
| Get (url : string) (timeout : Z)
| GoTo (path : string).

(** How the GET ended: a 2xx response with its body (possibly [null]), a
    404, or any other failure. *)
Inductive Response : Type :=
| Body (data : option CandidatesByPosition)
| NotFound
| Failed.

(** [localStorage.getItem("voterId")] used as a condition: [null] and the
    empty string are falsy. *)
Definition stored (voterId : option string) : option string :=
  match voterId with
  | Some v => if JS.truthy v then Some v else None
  | None => None
  end.

Definition ballot_url (apiUrl voterId : string) : string :=
  apiUrl ++ "/api/candidates/for-voter?voterId=" ++ voterId.

Definition no_voter_id (st : State) : State :=
  {| candidatesByPosition := candidatesByPosition st;
     positions := positions st;
     selectedCandidateIds := selectedCandidateIds st;
     noneSelected := noneSelected st;
     error := "Please enter your Voter ID to view candidates.";
     unselectedPositions := unselectedPositions st;
     loading := false |}.

Definition load_failed (message : string) (st : State) : State :=
  {| candidatesByPosition := candidatesByPosition st;
     positions := positions st;
     selectedCandidateIds := selectedCandidateIds st;
     noneSelected := noneSelected st;
     error := message;
     unselectedPositions := unselectedPositions st;
     loading := false |}.

(** The success branch of the first effect: both selection cells are
    emptied, the ballot is stored, the error is left as it is. *)
Definition first_loaded (data : CandidatesByPosition) (st : State) : State :=
  {| candidatesByPosition := data;
     positions := JS.keys data;
     selectedCandidateIds := ∅;
     noneSelected := ∅;
     error := error st;
     unselectedPositions := unselectedPositions st;
     loading := false |}.

(** The first [useEffect] (dependencies [user], [navigate], [apiUrl]);
    [user] tells whether the context holds a user.  With a [null] body
    [setCandidatesByPosition(null)] goes through before [Object.keys]
    throws, and the next render throws in turn on
    [Object.keys(candidatesByPosition)]: that outcome is [None]. *)
Definition useEffect_user (user : bool) (apiUrl : string)
    (voterId : option string) (r : Response) (st : State)
    : option (State * list Effect) :=
  if negb user then Some (st, [GoTo "/"])
  else
    match stored voterId with
    | None => Some (no_voter_id st, [])
    | Some v =>
        let request := Get (ballot_url apiUrl v) 15000 in
        match r with
        | Body (Some data) => Some (first_loaded data st, [request])
        | Body None => None
        | _ =>
            Some (load_failed "Failed to load candidates. Please try again." st,
                  [request])
        end
    end.

(** The second [useEffect] (dependency [apiUrl]). *)
Definition useEffect_mount (apiUrl : string) (voterId : option string)
    (r : Response) (st : State) : State * list Effect :=
  match stored voterId with
  | None => (no_voter_id st, [])
  | Some v =>
      let request := Get (ballot_url apiUrl v) 15000 in
      match r with
      | Body None => (refresh_empty st, [request])
      | Body (Some data) =>
          if bool_decide (length (JS.keys data) = 0%nat)
          then (refresh_empty st, [request])
          else (refresh_loaded data st, [request])
      | NotFound =>
          (load_failed
             "No candidates found for your voter group. Please contact the administrator."
             st,
           [request])
      | Failed =>
          (load_failed "Failed to load candidates. Please try again." st,
           [request])
      end
  end.

(** The two early returns of the component body. *)
Inductive Screen : Type := Blank | VoterIdRequired | BallotPage.

Definition screen (user : bool) (voterId : option string) : Screen :=
  if negb user then Blank
  else match stored voterId with
       | None => VoterIdRequired
       | Some _ => BallotPage
       end.

End CandidatesMount.

(** ** The rest of the log viewer: filter choices, buttons, the trace *)
Module JSSet.

(** [[...new Set(values)]]: the values in order of first appearance. *)
Definition add (seen : list string) (value : string) : list string :=
  if existsb (String.eqb value) seen then seen else (seen ++ [value])%list.

Definition spread (values : list string) : list string := foldl add [] values.

(** [self.indexOf(value)]; [None] is [-1]. *)
Fixpoint indexOf (self : list string) (value : string) : option nat :=
  match self with
  | [] => None
  | x :: rest =>
      if String.eqb x value then Some 0%nat else S <$> indexOf rest value
  end.

(** [array.filter((value, index) => ...)], from index [index] on. *)
Fixpoint filter_indexed {A} (f : A → nat → bool) (index : nat) (l : list A)
    : list A :=
  match l with
  | [] => []
  | x :: rest =>
      if f x index then x :: filter_indexed f (S index) rest
      else filter_indexed f (S index) rest
  end.

End JSSet.

Module ActivityLogView.
Import ActivityLogManager.

(** [log.user?.fullName || log.user?.username]; [undefined] is rendered
    here as the empty string, which is as falsy. *)
Definition user_label (log : ActivityLog.t) : string :=
  match ActivityLog.user log with
  | Some u => if JS.truthy (User.fullName u) then User.fullName u else User.username u
  | None => EmptyString
  end.

(** [getUniqueUsers]. *)
Definition getUniqueUsers (all : list ActivityLog.t) : list string :=
  let labels :=
    map user_label (List.filter (λ log, bool_decide (is_Some (ActivityLog.user log))) all) in
  JSSet.filter_indexed
    (λ value index,
       JS.truthy value && bool_decide (JSSet.indexOf labels value = Some index))
    0 labels.

(** [getUniqueActions] and [getUniqueEntities]. *)
Definition getUniqueActions (all : list ActivityLog.t) : list string :=
  JSSet.spread (map ActivityLog.action all).

Definition getUniqueEntities (all : list ActivityLog.t) : list string :=
  JSSet.spread (map ActivityLog.entity all).

(** [Object.values(filters)]. *)
Definition values (f : Filters.t) : list string :=
  [Filters.user f; Filters.action f; Filters.entity f;
   Filters.fromDate f; Filters.toDate f].

(** The [disabled] attribute of the two clear-filters buttons:
    [!Object.values(filters).some(Boolean) && !searchTerm]. *)
Definition clear_disabled (st : State) : bool :=
  negb (existsb JS.truthy (values (filters st)))
  && negb (JS.truthy (searchTerm st)).

Section Trace.
Variable canViewLogs canDeleteLogs : bool.
Variable apiUrl : string.
Variable tza : Z.
Variable Date_parse : string → JSDate.TimeValue.
Variable formatTimestamp : string → string.

(** Everything asked of the browser along a run. *)
Fixpoint trace (st : State) (evs : list Event) : list Effect :=
  match evs with
  | [] => []
  | ev :: rest =>
      ((handle canViewLogs canDeleteLogs apiUrl formatTimestamp ev st).2
       ++ trace (step canViewLogs canDeleteLogs apiUrl tza Date_parse
                   formatTimestamp st ev) rest)%list
  end.

End Trace.

End ActivityLogView.

(** ** More concrete data *)
Module Demo2.
Import Candidates.

(** A candidate as the database holds it, with [_id] and no [id]. *)
Definition erin : Candidate.t :=
  {| Candidate.id := None; Candidate._id := Some "65f1c0ffee";
     Candidate.name := "Erin"; Candidate.position := "Secretary" |}.

Definition ballot_with_erin : CandidatesByPosition :=
  [("President", [Demo.alice; Demo.bob]); ("Secretary", [Demo.carol; erin])].

Definition loaded_with_erin : State :=
  run initial [RefreshClick; RefreshSettled (Fulfilled (Some ballot_with_erin));
               Vote Demo.alice "President"].

End Demo2.

Module Demo3.

(** A second entry stamped with the instant of [Demo.noon_entry]. *)
Definition twin_entry : ActivityLog.t :=
  {| ActivityLog._id := "l3"; ActivityLog.userId := "u1";
     ActivityLog.user := Some Demo.admin;
     ActivityLog.action := "UPDATE"; ActivityLog.entity := "Voter";
     ActivityLog.entityId := "v7";
     ActivityLog.details := "Renamed voter";
     ActivityLog.ipAddress := "10.0.0.5";
     ActivityLog.timestamp := "2025-01-15T12:00:00.000Z" |}.

Definition trail : list ActivityLog.t :=
  [Demo.noon_entry; Demo.earlier_entry; twin_entry].

(** From the 16th to the 14th of January. *)
Definition inverted : Filters.t :=
  Filters.set Filters.FromDate "2025-01-16"
    (Filters.set Filters.ToDate "2025-01-14" Filters.cleared).

End Demo3.

(** ** A session in which the refresh button comes up after a vote *)
Module Demo4.
Import Candidates.

Definition apiUrl : string := "http://localhost:5000".
Definition voterId : option string := Some "V-042".

(** The first mount effect brought the ballot. *)
Definition first_settled : State :=
  match CandidatesMount.useEffect_user true apiUrl voterId
          (CandidatesMount.Body (Some Demo.ballot)) initial with
  | Some (st, _) => useEffect_unselected st
  | None => initial
  end.

(** The voter chose Alice for President. *)
Definition voted : State := step first_settled (Vote Demo.alice "President").

(** The request of the second mount effect, still outstanding, then came
    back with an empty object: the ballot is emptied and the no-candidates
    notice, with its refresh button, is on screen. *)
Definition emptied : State :=
  useEffect_unselected
    (CandidatesMount.useEffect_mount apiUrl voterId
       (CandidatesMount.Body (Some [])) voted).1.

(** The voter pressed Refresh Candidates and the ballot came back. *)
Definition refreshed : State :=
  run emptied [RefreshClick; RefreshSettled (Fulfilled (Some Demo.ballot))].

End Demo4.

(** ** Properties of the ballot component *)
Module CandidatesSpec.
Import Candidates.

Lemma flag_true (o : option bool) : flag o = true ↔ o = Some true.
Proof. destruct o as [[]|]; simpl; split; congruence. Qed.

Lemma is_unselected_spec (st : State) (p : string) :
  is_unselected st p = true
  ↔ selectedCandidateIds st !! p = None ∧ noneSelected st !! p ≠ Some true.
Proof.
  unfold is_unselected.
  rewrite andb_true_iff, bool_decide_eq_true, negb_true_iff.
  rewrite <- flag_true. destruct (flag _); intuition congruence.
Qed.

Lemma position_done_spec (st : State) (p : string) :
  position_done st p = true
  ↔ is_Some (selectedCandidateIds st !! p) ∨ noneSelected st !! p = Some true.
Proof.
  unfold position_done.
  rewrite orb_true_iff, bool_decide_eq_true, flag_true, not_eq_None_Some.
  reflexivity.
Qed.

Lemma position_done_unselected (st : State) (p : string) :
  position_done st p = negb (is_unselected st p).
Proof.
  unfold position_done, is_unselected.
  destruct (selectedCandidateIds st !! p), (flag _); reflexivity.
Qed.

Lemma step_settled (st : State) (ev : Event) : settled (step st ev).
Proof. reflexivity. Qed.

Lemma run_settled (st : State) (evs : list Event) :
  settled st → settled (run st evs).
Proof.
  revert st. induction evs as [|ev evs IH]; intros st Hst; [exact Hst|].
  apply IH, step_settled.
Qed.

(** The reducer run over the entries of a map keeps, for each position,
    exactly the entry that resolves. *)
Lemma foldl_reducer_lookup (cbp : CandidatesByPosition)
    (l : list (string * string)) (acc : gmap string Candidate.t) (p : string) :
  NoDup l.*1 →
  foldl (reducer cbp) acc l !! p
  = match (list_to_map l : gmap string string) !! p ≫= find_candidate cbp p with
    | Some c => Some c
    | None => acc !! p
    end.
Proof.
  revert acc. induction l as [|[k v] l IH]; intros acc Hnd.
  - simpl. rewrite lookup_empty. reflexivity.
  - apply NoDup_cons in Hnd as [Hk Hnd]. simpl foldl. rewrite IH by exact Hnd.
    simpl list_to_map. destruct (decide (k = p)) as [->|Hne].
    + rewrite lookup_insert_eq.
      rewrite (not_elem_of_list_to_map_1 (M := gmap string) l p Hk). simpl.
      destruct (find_candidate cbp p v) as [c|]; [|reflexivity].
      apply lookup_insert_eq.
    + rewrite lookup_insert_ne by exact Hne.
      destruct (_ ≫= _) as [c|]; [reflexivity|].
      simpl. destruct (find_candidate cbp k v); [|reflexivity].
      apply lookup_insert_ne, Hne.
Qed.

Lemma validSelectedCandidates_lookup (st : State) (p : string) :
  validSelectedCandidates st !! p
  = selectedCandidateIds st !! p ≫= find_candidate (candidatesByPosition st) p.
Proof.
  unfold validSelectedCandidates.
  rewrite foldl_reducer_lookup by apply NoDup_fst_map_to_list.
  rewrite list_to_map_to_list, lookup_empty.
  destruct (_ ≫= _); reflexivity.
Qed.

Lemma allPositionsSelected_spec (st : State) :
  allPositionsSelected st = true
  ↔ ∀ p, p ∈ positions st →
      is_Some (selectedCandidateIds st !! p) ∨ noneSelected st !! p = Some true.
Proof.
  unfold allPositionsSelected. rewrite forallb_forall.
  split; intros H p Hp; apply position_done_spec, H;
    [apply list_elem_of_In|apply list_elem_of_In in Hp]; exact Hp.
Qed.

(** *** Completeness check *)

(** C1.  With the derived cell [unselectedPositions] up to date, pressing
    confirm navigates to the confirmation stage if and only if every
    position of the list has a selected candidate id or a true abstention
    flag; when it navigates the target is [/confirm-vote] and the state is
    untouched; when it does not, the error message is the fixed
    introduction followed by the names, in ballot order and separated by
    commas, of exactly the positions with neither. *)
Theorem handleConfirmVote_complete_iff (st : State) (Hst : settled st) :
  let complete :=
    ∀ p, p ∈ positions st →
      is_Some (selectedCandidateIds st !! p) ∨ noneSelected st !! p = Some true in
  let incomplete :=
    filter (λ p, selectedCandidateIds st !! p = None
                 ∧ noneSelected st !! p ≠ Some true) (positions st) in
  ((∃ nav, (handleConfirmVote st).2 = Some nav) ↔ complete)
  ∧ (∀ nav, (handleConfirmVote st).2 = Some nav →
       (∃ payload, nav = Navigate "/confirm-vote" payload)
       ∧ (handleConfirmVote st).1 = st)
  ∧ ((handleConfirmVote st).2 = None →
       error (handleConfirmVote st).1
       = "Please make a selection for each position: " ++ JS.join ", " incomplete
       ∧ incomplete ≠ []).
Proof.
  intros complete incomplete.
  assert (Hinc : unselectedPositions st = incomplete).
  { rewrite Hst. apply list_filter_iff. intros p. apply is_unselected_spec. }
  pose proof (allPositionsSelected_spec st) as Hall. fold complete in Hall.
  unfold handleConfirmVote.
  destruct (allPositionsSelected st) eqn:Heq; simpl.
  - split; [|split].
    + split; [intros _; apply Hall; reflexivity|eauto].
    + intros nav [= <-]. eauto.
    + discriminate.
  - split; [|split].
    + split; [intros [nav [=]]|].
      intros Hc. apply Hall in Hc. discriminate.
    + discriminate.
    + intros _. rewrite Hinc. split; [reflexivity|].
      intros Hnil. assert (Hc : complete); [|apply Hall in Hc; discriminate].
      intros p Hp.
      destruct (decide (selectedCandidateIds st !! p = None
                        ∧ noneSelected st !! p ≠ Some true)) as [Hd|Hd].
      * assert (Hin : p ∈ incomplete) by (apply list_elem_of_filter; eauto).
        rewrite Hnil in Hin. inversion Hin.
      * apply not_and_l in Hd as [Hd|Hd].
        -- left. apply not_eq_None_Some, Hd.
        -- right. apply dec_stable, Hd.
Qed.

Lemma handleConfirmVote_complete_iff_witness :
  settled Demo.half_voted
  ∧ (handleConfirmVote Demo.half_voted).2 = None
  ∧ error (handleConfirmVote Demo.half_voted).1
    = "Please make a selection for each position: Secretary"
  ∧ (∃ nav, (handleConfirmVote Demo.fully_voted).2 = Some nav).
Proof.
  assert (Hs : settled Demo.half_voted) by (vm_compute; reflexivity).
  assert (Hf : settled Demo.fully_voted) by (vm_compute; reflexivity).
  assert (Hn : (handleConfirmVote Demo.half_voted).2 = None)
    by (vm_compute; reflexivity).
  split; [exact Hs|]. split; [exact Hn|]. split.
  - destruct (handleConfirmVote_complete_iff Demo.half_voted Hs)
      as (_ & _ & Herr).
    destruct (Herr Hn) as [-> _]. vm_compute. reflexivity.
  - apply (handleConfirmVote_complete_iff Demo.fully_voted Hf).
    intros p Hp.
    apply list_elem_of_In in Hp. simpl in Hp.
    destruct Hp as [<-|[<-|[]]]; [left|right]; vm_compute; eauto.
Defined.

(** *** Mutual exclusion of selection and abstention *)

Lemma handle_selection_cells (ev : Event) (st : State) :
  match ev with
  | Vote c p =>
      selectedCandidateIds (handle ev st)
      = <[p := candidateId_of c]> (selectedCandidateIds st)
      ∧ noneSelected (handle ev st) = <[p := false]> (noneSelected st)
  | NoneSelected p =>
      selectedCandidateIds (handle ev st) = delete p (selectedCandidateIds st)
      ∧ noneSelected (handle ev st) = <[p := true]> (noneSelected st)
  | _ =>
      selectedCandidateIds (handle ev st) = selectedCandidateIds st
      ∧ noneSelected (handle ev st) = noneSelected st
  end.
Proof.
  destruct ev as [c p|p| | |r]; simpl; try (split; reflexivity).
  - unfold handleConfirmVote. destruct (allPositionsSelected st); split; reflexivity.
  - destruct r as [[data|]|]; simpl; [case_bool_decide| |]; split; reflexivity.
Qed.

Lemma exclusive_step (st : State) (ev : Event) :
  exclusive st → exclusive (step st ev).
Proof.
  intros Hex q [Hsel Hnone]. unfold step in Hsel, Hnone. simpl in Hsel, Hnone.
  pose proof (handle_selection_cells ev st) as Hcells.
  destruct ev as [c p|p| | |r]; destruct Hcells as [Es En];
    rewrite Es in Hsel; rewrite En in Hnone;
    try (apply (Hex q); split; assumption).
  - destruct (decide (p = q)) as [->|Hne].
    + rewrite lookup_insert_eq in Hnone. discriminate.
    + rewrite lookup_insert_ne in Hsel by exact Hne.
      rewrite lookup_insert_ne in Hnone by exact Hne.
      apply (Hex q); split; assumption.
  - destruct (decide (p = q)) as [->|Hne].
    + rewrite lookup_delete_eq in Hsel. destruct Hsel as [? [=]].
    + rewrite lookup_delete_ne in Hsel by exact Hne.
      rewrite lookup_insert_ne in Hnone by exact Hne.
      apply (Hex q); split; assumption.
Qed.

Lemma exclusive_run (st : State) (evs : list Event) :
  exclusive st → exclusive (run st evs).
Proof.
  revert st. induction evs as [|ev evs IH]; intros st Hex; [exact Hex|].
  apply IH, exclusive_step, Hex.
Qed.

(** C2.  From a state with no selection and no abstention, whatever the
    voter does next (any sequence of votes and abstentions, interleaved or
    not with confirm attempts and refreshes), no position ever has both a
    selected candidate id and a true abstention flag; a vote for a position
    leaves its abstention flag [false], and an abstention for a position
    removes its selected candidate id. *)
Theorem selection_abstention_exclusive (st0 : State) (evs : list Event)
    (Hsel : selectedCandidateIds st0 = ∅) (Hnone : noneSelected st0 = ∅) :
  (∀ position,
     ¬ (is_Some (selectedCandidateIds (run st0 evs) !! position)
        ∧ noneSelected (run st0 evs) !! position = Some true))
  ∧ (∀ c p st, noneSelected (handleVote c p st) !! p = Some false)
  ∧ (∀ p st, selectedCandidateIds (handleNoneSelected p st) !! p = None).
Proof.
  split; [|split].
  - apply exclusive_run. intros q [_ Hq]. rewrite Hnone, lookup_empty in Hq.
    discriminate.
  - intros c p st. apply lookup_insert_eq.
  - intros p st. apply lookup_delete_eq.
Qed.

Lemma selection_abstention_exclusive_witness :
  ¬ (is_Some (selectedCandidateIds Demo.fully_voted !! "Secretary")
     ∧ noneSelected Demo.fully_voted !! "Secretary" = Some true)
  ∧ noneSelected Demo.fully_voted !! "Secretary" = Some true.
Proof.
  split; [|vm_compute; reflexivity].
  exact (proj1 (selection_abstention_exclusive initial
                  [RefreshClick; RefreshSettled (Fulfilled (Some Demo.ballot));
                   Vote Demo.alice "President"; NoneSelected "Secretary"]
                  eq_refl eq_refl) "Secretary").
Defined.

(** *** Manual refresh *)

(** What a manual refresh writes, from the click to the settling of the
    request: the selected-candidate map and the abstention map are left as
    they were, whatever the outcome.  When the request succeeds with at
    least one position the ballot becomes the fetched data and the position
    list its keys; when it succeeds with no data or no position both become
    empty; when it fails both are kept. *)
Lemma handleRefresh_keeps_selections (st : State) (r : Response) :
  let st' := run st [RefreshClick; RefreshSettled r] in
  selectedCandidateIds st' = selectedCandidateIds st
  ∧ noneSelected st' = noneSelected st
  ∧ match r with
    | Fulfilled (Some data) =>
        candidatesByPosition st' = data ∧ positions st' = JS.keys data
    | Fulfilled None =>
        candidatesByPosition st' = [] ∧ positions st' = []
    | Rejected =>
        candidatesByPosition st' = candidatesByPosition st
        ∧ positions st' = positions st
    end.
Proof.
  destruct r as [[data|]|]; simpl; try (repeat split; reflexivity).
  destruct data as [|entry data]; simpl; repeat split; reflexivity.
Qed.

(** C3.  The code at an input on which a manual refresh does not reset
    the selections.  The first mount effect loads the ballot, the voter
    chooses Alice for President, and the response of the second mount
    effect then arrives with an empty object: the ballot is empty, loading
    is over, so the Refresh Candidates button is on screen, and the choice
    is still stored.  The voter presses the button and the ballot comes
    back: it is replaced by the fetched data, but the selected-candidate
    map still holds Alice's id for President and the abstention map its
    [false], so neither is reset.  The first mount effect, run on the very
    state in which the voter had chosen, empties both maps. *)
Theorem handleRefresh_keeps_stale_selections :
  CandidatesView.refresh_offered Demo4.voted = false
  ∧ CandidatesView.refresh_offered Demo4.emptied = true
  ∧ selectedCandidateIds Demo4.emptied !! "President" = Some "c1"
  ∧ candidatesByPosition Demo4.refreshed = Demo.ballot
  ∧ positions Demo4.refreshed = ["President"; "Secretary"]
  ∧ selectedCandidateIds Demo4.refreshed !! "President" = Some "c1"
  ∧ noneSelected Demo4.refreshed !! "President" = Some false
  ∧ ¬ refresh_resets Demo4.emptied (Some Demo.ballot)
  ∧ ∃ st effects,
      CandidatesMount.useEffect_user true Demo4.apiUrl Demo4.voterId
        (CandidatesMount.Body (Some Demo.ballot)) Demo4.voted
      = Some (st, effects)
      ∧ selectedCandidateIds st = ∅ ∧ noneSelected st = ∅.
Proof.
  assert (Hkept : selectedCandidateIds Demo4.refreshed !! "President" = Some "c1")
    by (vm_compute; reflexivity).
  split; [vm_compute; reflexivity|]. split; [vm_compute; reflexivity|].
  split; [vm_compute; reflexivity|]. split; [reflexivity|].
  split; [reflexivity|]. split; [exact Hkept|].
  split; [vm_compute; reflexivity|]. split.
  - intros [Hsel _]. unfold refresh_resets in Hsel.
    change (run Demo4.emptied
              [RefreshClick; RefreshSettled (Fulfilled (Some Demo.ballot))])
      with Demo4.refreshed in Hsel.
    rewrite Hsel, lookup_empty in Hkept. discriminate.
  - eexists _, _. split; [reflexivity|]. split; reflexivity.
Qed.

(** *** Confirmation handoff *)

(** C4.  When every position has a selected candidate id or a true
    abstention flag, confirm navigates to [/confirm-vote] and changes no
    cell (no error is set).  In the payload, a position maps to the
    candidate that the lookup of its stored id in that position's candidate
    list finds; a stored id that finds nothing (no such position in the
    ballot, or no candidate with that id) leaves the position out of the
    payload; and the abstention map is the component's own, unchanged. *)
Theorem handleConfirmVote_payload (st : State)
    (Hall : ∀ p, p ∈ positions st →
              is_Some (selectedCandidateIds st !! p)
              ∨ noneSelected st !! p = Some true) :
  ∃ payload,
    handleConfirmVote st = (st, Some (Navigate "/confirm-vote" payload))
    ∧ (∀ p, selectedCandidates payload !! p
            = selectedCandidateIds st !! p
                ≫= λ candidateId,
                     JS.get (candidatesByPosition st) p
                       ≫= List.find (λ c, bool_decide (Candidate.id c = Some candidateId)))
    ∧ (∀ p candidateId,
         selectedCandidateIds st !! p = Some candidateId →
         find_candidate (candidatesByPosition st) p candidateId = None →
         selectedCandidates payload !! p = None)
    ∧ confirm_noneSelected payload = noneSelected st.
Proof.
  apply allPositionsSelected_spec in Hall.
  unfold handleConfirmVote. rewrite Hall.
  eexists. split; [reflexivity|]. simpl. split; [|split].
  - intros p. apply validSelectedCandidates_lookup.
  - intros p cid Hsel Hfind.
    rewrite validSelectedCandidates_lookup, Hsel. exact Hfind.
  - reflexivity.
Qed.

Lemma handleConfirmVote_payload_witness :
  let st := run Demo.fully_voted
              [RefreshClick;
               RefreshSettled (Fulfilled (Some Demo.ballot_without_alice))] in
  ∃ payload,
    handleConfirmVote st = (st, Some (Navigate "/confirm-vote" payload))
    ∧ selectedCandidateIds st !! "President" = Some "c1"
    ∧ selectedCandidates payload !! "President" = None
    ∧ confirm_noneSelected payload !! "Secretary" = Some true.
Proof.
  intros st.
  destruct (handleConfirmVote_payload st) as (payload & Hnav & Hlook & _ & Hnone).
  - intros p Hp. apply list_elem_of_In in Hp. simpl in Hp.
    destruct Hp as [<-|[<-|[]]]; [left|right]; vm_compute; eauto.
  - exists payload. split; [exact Hnav|]. split; [|split].
    + vm_compute. reflexivity.
    + rewrite Hlook. vm_compute. reflexivity.
    + rewrite Hnone. vm_compute. reflexivity.
Defined.

(** C10.  A vote for a candidate with neither [id] nor [_id] records the
    empty string for the position.  The position then passes the
    completeness test; and if no candidate listed for it has the empty
    string as id, a confirm that goes through (every position complete)
    hands over a payload in which the position has no candidate and no
    true abstention flag. *)
Theorem vote_without_id_confirms_empty (candidate : Candidate.t)
    (position : string) (st : State)
    (Hid : Candidate.id candidate = None)
    (H_id : Candidate._id candidate = None) :
  let st1 := step st (Vote candidate position) in
  selectedCandidateIds st1 !! position = Some EmptyString
  ∧ position_done st1 position = true
  ∧ ((∀ cs c, JS.get (candidatesByPosition st) position = Some cs →
              c ∈ cs → Candidate.id c ≠ Some EmptyString) →
     allPositionsSelected st1 = true →
     ∃ payload,
       handleConfirmVote st1 = (st1, Some (Navigate "/confirm-vote" payload))
       ∧ selectedCandidates payload !! position = None
       ∧ confirm_noneSelected payload !! position = Some false).
Proof.
  intros st1.
  assert (Hsel : selectedCandidateIds st1 !! position = Some EmptyString).
  { unfold st1. simpl. unfold candidateId_of. rewrite Hid, H_id. simpl.
    apply lookup_insert_eq. }
  split; [exact Hsel|]. split.
  { apply position_done_spec. left. rewrite Hsel. eauto. }
  intros Hno Hall.
  unfold handleConfirmVote. rewrite Hall.
  eexists. split; [reflexivity|]. simpl. split.
  - change (validSelectedCandidates st1 !! position = None).
    rewrite validSelectedCandidates_lookup, Hsel. simpl.
    unfold find_candidate.
    destruct (JS.get (candidatesByPosition st) position) as [cs|] eqn:Hget;
      [|reflexivity].
    simpl. destruct (List.find _ cs) as [c|] eqn:Hfind; [|reflexivity].
    apply find_some in Hfind as [Hin Hc].
    apply bool_decide_eq_true in Hc.
    exfalso. apply (Hno cs c eq_refl); [apply list_elem_of_In, Hin|exact Hc].
  - apply lookup_insert_eq.
Qed.

Lemma vote_without_id_confirms_empty_witness :
  let st1 := step Demo.half_voted (Vote Demo.nameless "Secretary") in
  ∃ payload,
    handleConfirmVote st1 = (st1, Some (Navigate "/confirm-vote" payload))
    ∧ selectedCandidates payload !! "Secretary" = None
    ∧ confirm_noneSelected payload !! "Secretary" = Some false.
Proof.
  apply (vote_without_id_confirms_empty Demo.nameless "Secretary"
           Demo.half_voted eq_refl eq_refl).
  - intros cs c Hget Hc. vm_compute in Hget. injection Hget as <-.
    apply list_elem_of_In in Hc. simpl in Hc.
    destruct Hc as [<-|[]]. discriminate.
  - vm_compute. reflexivity.
Defined.

End CandidatesSpec.

(** ** Properties of the activity-log viewer *)
Module ActivityLogSpec.
Import ActivityLogManager.

(** *** Strings *)
Lemma append_cons (ch : ascii) (a b : string) :
  String ch a ++ b = String ch (a ++ b).
Proof. reflexivity. Qed.

Lemma append_assoc (a b c : string) : (a ++ b) ++ c = a ++ b ++ c.
Proof.
  induction a as [|ch a IH]; [reflexivity|].
  rewrite !append_cons, IH. reflexivity.
Qed.

Lemma append_empty_r (a : string) : a ++ EmptyString = a.
Proof.
  induction a as [|ch a IH]; [reflexivity|].
  rewrite append_cons, IH. reflexivity.
Qed.

Lemma truthy_false (s : string) : JS.truthy s = false → s = EmptyString.
Proof. destruct s; [reflexivity|discriminate]. Qed.

Lemma includes_empty (s : string) : JS.includes s EmptyString = true.
Proof. destruct s; reflexivity. Qed.

Lemma empty_includes (t : string) :
  JS.truthy t = true → JS.includes EmptyString (JS.toLowerCase t) = false.
Proof. destruct t; [discriminate|reflexivity]. Qed.

(** *** Lists *)
Lemma filter_all {A} (p : A → bool) (l : list A) :
  (∀ x, p x = true) → List.filter p l = l.
Proof.
  intros Hp. induction l as [|x l IH]; simpl; [reflexivity|].
  rewrite Hp, IH. reflexivity.
Qed.

Lemma filter_twice {A} (p q : A → bool) (l : list A) :
  List.filter q (List.filter p l) = List.filter (λ x, p x && q x) l.
Proof.
  induction l as [|x l IH]; simpl; [reflexivity|].
  destruct (p x); simpl; [destruct (q x)|]; rewrite IH; reflexivity.
Qed.

Lemma filter_implies_sublist {A} (p q : A → bool) (l : list A) :
  (∀ x, p x = true → q x = true) →
  List.filter p l `sublist_of` List.filter q l.
Proof.
  intros Hpq. induction l as [|x l IH]; simpl; [constructor|].
  destruct (p x) eqn:Hp.
  - rewrite (Hpq x Hp). constructor. exact IH.
  - destruct (q x); [constructor|]; exact IH.
Qed.

(** *** The sort *)
Section SortFacts.
Context {A : Type} (comparefn : A → A → option Z).

Lemma insert_Permutation (x : A) (l : list A) :
  JSArray.insert comparefn x l ≡ₚ x :: l.
Proof.
  induction l as [|y l IH]; simpl; [reflexivity|].
  destruct (JSArray.keeps_order comparefn x y); [reflexivity|].
  rewrite IH. apply perm_swap.
Qed.

Lemma sort_Permutation (l : list A) : JSArray.sort comparefn l ≡ₚ l.
Proof.
  induction l as [|x l IH]; simpl; [reflexivity|].
  rewrite insert_Permutation, IH. reflexivity.
Qed.

Lemma sort_nil : JSArray.sort comparefn [] = [].
Proof. reflexivity. Qed.

End SortFacts.

(** *** The filtering pipeline *)
Section Pipeline.
Variable canViewLogs canDeleteLogs : bool.
Variable apiUrl : string.
Variable tza : Z.
Variable Date_parse : string → JSDate.TimeValue.
Variable formatTimestamp : string → string.

Local Abbreviation step :=
  (step canViewLogs canDeleteLogs apiUrl tza Date_parse formatTimestamp).
Local Abbreviation run :=
  (run canViewLogs canDeleteLogs apiUrl tza Date_parse formatTimestamp).
Local Abbreviation handle :=
  (handle canViewLogs canDeleteLogs apiUrl formatTimestamp).
Local Abbreviation spec_pipeline := (spec_pipeline tza Date_parse).
Local Abbreviation applyFilters := (applyFilters tza Date_parse).
Local Abbreviation spec_structured := (spec_structured tza Date_parse).
Local Abbreviation kept := (kept tza Date_parse).
Local Abbreviation in_sync := (in_sync tza Date_parse).
Local Abbreviation not_older := (not_older Date_parse).
Local Abbreviation valid_timestamp := (valid_timestamp Date_parse).

Lemma spec_search_empty (log : ActivityLog.t) :
  spec_search EmptyString log = true.
Proof.
  unfold spec_search. apply existsb_exists.
  exists (ActivityLog.details log). split; [|apply includes_empty].
  apply in_or_app. right. simpl. auto.
Qed.

Lemma matches_search_spec (search : string) (log : ActivityLog.t) :
  JS.truthy search = true →
  matches_search (JS.toLowerCase search) log = spec_search search log.
Proof.
  intros Hs. unfold matches_search, spec_search.
  destruct (ActivityLog.user log) as [u|]; simpl.
  - rewrite orb_false_r, !orb_assoc. repeat f_equal.
    + destruct (JS.truthy (User.username u)) eqn:Hu; [reflexivity|].
      apply truthy_false in Hu. rewrite Hu. simpl JS.toLowerCase.
      rewrite empty_includes by exact Hs. reflexivity.
    + destruct (JS.truthy (User.fullName u)) eqn:Hu; [reflexivity|].
      apply truthy_false in Hu. rewrite Hu. simpl JS.toLowerCase.
      rewrite empty_includes by exact Hs. reflexivity.
  - rewrite orb_false_r, !orb_assoc. reflexivity.
Qed.

Lemma search_step (search : string) (l : list ActivityLog.t) :
  (if JS.truthy search
   then List.filter (matches_search (JS.toLowerCase search)) l else l)
  = List.filter (spec_search search) l.
Proof.
  destruct (JS.truthy search) eqn:Hs.
  - apply filter_ext. intros log. apply matches_search_spec, Hs.
  - apply truthy_false in Hs. subst search. symmetry.
    apply filter_all, spec_search_empty.
Qed.

Lemma structured_step (value : string)
    (test : string → ActivityLog.t → bool) (l : list ActivityLog.t) :
  (if JS.truthy value then List.filter (test value) l else l)
  = List.filter (when_set value test) l.
Proof.
  unfold when_set. destruct (JS.truthy value); simpl; [reflexivity|].
  symmetry. apply filter_all. reflexivity.
Qed.

(** The effect's chain of conditional filters is the pipeline of the
    specification. *)
Lemma applyFilters_spec (all : list ActivityLog.t) (search : string)
    (f : Filters.t) :
  applyFilters all search f = spec_pipeline all search f.
Proof.
  unfold ActivityLogManager.applyFilters, ActivityLogManager.spec_pipeline. cbv zeta.
  rewrite search_step, !structured_step, !filter_twice.
  f_equal. apply filter_ext. intros log.
  unfold ActivityLogManager.spec_structured. rewrite !andb_assoc. reflexivity.
Qed.

Lemma spec_pipeline_nil (search : string) (f : Filters.t) :
  spec_pipeline [] search f = [].
Proof. reflexivity. Qed.

Lemma spec_pipeline_kept (all : list ActivityLog.t) (search : string)
    (f : Filters.t) :
  spec_pipeline all search f ≡ₚ List.filter (kept search f) all.
Proof.
  unfold ActivityLogManager.spec_pipeline.
  rewrite sort_Permutation, filter_twice. reflexivity.
Qed.

Lemma spec_pipeline_grows (all : list ActivityLog.t) (search search' : string)
    (f f' : Filters.t) :
  (∀ log, kept search f log = true → kept search' f' log = true) →
  spec_pipeline all search f ⊆+ spec_pipeline all search' f'.
Proof.
  intros Himp. rewrite !spec_pipeline_kept.
  apply sublist_submseteq, filter_implies_sublist, Himp.
Qed.

Lemma useEffect_filter_in_sync (st : State) :
  (logs st = [] → filteredLogs st = []) →
  in_sync (useEffect_filter tza Date_parse st).
Proof.
  intros Hnil. unfold useEffect_filter, in_sync.
  case_bool_decide as Hlen.
  - apply length_zero_iff_nil in Hlen. rewrite Hnil, Hlen by exact Hlen.
    reflexivity.
  - simpl. apply applyFilters_spec.
Qed.

Lemma handle_nil (ev : Event) (st : State) :
  in_sync st → logs (handle ev st).1 = [] → filteredLogs (handle ev st).1 = [].
Proof.
  unfold in_sync. intros Hst.
  assert (Hkeep : logs st = [] → filteredLogs st = []).
  { intros Hl. rewrite Hst, Hl. reflexivity. }
  destruct ev as [r|v|n v| | |c r|[]| |today]; simpl; try exact Hkeep.
  - unfold fetchLogs. destruct canViewLogs; simpl; [|exact Hkeep].
    destruct r; simpl; [auto|exact Hkeep..].
  - unfold handleClearLogs. destruct canDeleteLogs; simpl; [|exact Hkeep].
    destruct c; simpl; [|exact Hkeep].
    destruct r; simpl; [reflexivity|exact Hkeep..].
Qed.

Lemma step_in_sync (st : State) (ev : Event) : in_sync st → in_sync (step st ev).
Proof. intros Hst. apply useEffect_filter_in_sync, handle_nil, Hst. Qed.

Lemma run_in_sync (st : State) (evs : list Event) :
  in_sync st → in_sync (run st evs).
Proof.
  revert st. induction evs as [|ev evs IH]; intros st Hst; [exact Hst|].
  apply IH, step_in_sync, Hst.
Qed.

Lemma initial_in_sync : in_sync initial.
Proof. reflexivity. Qed.

(** Newest first. *)
Lemma keeps_order_not_older (x y : ActivityLog.t) :
  valid_timestamp x → valid_timestamp y →
  if JSArray.keeps_order (newest_first Date_parse) x y
  then not_older x y else not_older y x.
Proof.
  intros [tx Hx] [ty Hy].
  unfold JSArray.keeps_order, newest_first. rewrite Hx, Hy. simpl.
  destruct (Z.leb_spec (ty - tx) 0).
  - exists tx, ty. repeat split; [assumption..|lia].
  - exists ty, tx. repeat split; [assumption..|lia].
Qed.

Lemma insert_HdRel (x y : ActivityLog.t) (l : list ActivityLog.t) :
  not_older y x → HdRel not_older y l →
  HdRel not_older y (JSArray.insert (newest_first Date_parse) x l).
Proof.
  intros Hyx Hl. destruct l as [|z l]; simpl; [constructor; exact Hyx|].
  destruct (JSArray.keeps_order _ x z); constructor; [exact Hyx|].
  inversion Hl; assumption.
Qed.

Lemma insert_Sorted (x : ActivityLog.t) (l : list ActivityLog.t) :
  valid_timestamp x → Forall valid_timestamp l → Sorted not_older l →
  Sorted not_older (JSArray.insert (newest_first Date_parse) x l).
Proof.
  intros Hx Hl Hs. induction l as [|y l IH]; simpl.
  - repeat constructor.
  - apply Forall_cons in Hl as [Hy Hl]. inversion Hs as [|? ? Hs' Hhd]; subst.
    pose proof (keeps_order_not_older x y Hx Hy) as Hxy.
    destruct (JSArray.keeps_order _ x y).
    + constructor; [exact Hs|]. constructor. exact Hxy.
    + constructor; [apply IH; assumption|].
      apply insert_HdRel; assumption.
Qed.

Lemma sort_Sorted (l : list ActivityLog.t) :
  Forall valid_timestamp l →
  Sorted not_older (JSArray.sort (newest_first Date_parse) l).
Proof.
  induction l as [|x l IH]; intros Hl; simpl; [constructor|].
  apply Forall_cons in Hl as [Hx Hl].
  apply insert_Sorted; [exact Hx| |apply IH, Hl].
  rewrite sort_Permutation. exact Hl.
Qed.

Lemma filter_valid (p : ActivityLog.t → bool) (l : list ActivityLog.t) :
  Forall valid_timestamp l → Forall valid_timestamp (List.filter p l).
Proof.
  rewrite !Forall_forall. intros Hl x Hx.
  apply list_elem_of_In, filter_In in Hx as [Hx _].
  apply Hl, list_elem_of_In, Hx.
Qed.

(** The cells the effect reads are the ones it leaves alone. *)
Lemma useEffect_filter_cells (st : State) :
  logs (useEffect_filter tza Date_parse st) = logs st
  ∧ searchTerm (useEffect_filter tza Date_parse st) = searchTerm st
  ∧ filters (useEffect_filter tza Date_parse st) = filters st.
Proof. unfold useEffect_filter. case_bool_decide; repeat split. Qed.

Lemma cleared_keeps_all (log : ActivityLog.t) :
  spec_structured Filters.cleared log = true.
Proof. reflexivity. Qed.

Lemma reset_keeps (name : Filters.Name) (f : Filters.t) (log : ActivityLog.t) :
  spec_structured f log = true →
  spec_structured (Filters.set name EmptyString f) log = true.
Proof.
  unfold ActivityLogManager.spec_structured. rewrite !andb_true_iff.
  intros ((((Hu & Ha) & He) & Hf) & Ht).
  destruct name; simpl; repeat split; assumption || reflexivity.
Qed.

Lemma relaxing_grows (st : State) (ev : Event) :
  in_sync st → relaxing ev = true →
  logs (step st ev) = logs st ∧ filteredLogs st ⊆+ filteredLogs (step st ev).
Proof.
  intros Hst Hev.
  pose proof (step_in_sync st ev Hst) as Hst'.
  unfold ActivityLogManager.in_sync in Hst, Hst'.
  unfold ActivityLogManager.step in *.
  destruct (useEffect_filter_cells (handle ev st).1) as (El & Es & Ef).
  rewrite Hst', El, Es, Ef, Hst. clear Hst' El Es Ef Hst.
  destruct ev as [r|v|n v| | |c r|t| |today]; try discriminate; simpl in *.
  - apply negb_true_iff, truthy_false in Hev. subst v.
    split; [reflexivity|]. apply spec_pipeline_grows. intros log.
    unfold ActivityLogManager.kept. rewrite !andb_true_iff, spec_search_empty.
    tauto.
  - apply negb_true_iff, truthy_false in Hev. subst v.
    split; [reflexivity|]. apply spec_pipeline_grows. intros log.
    unfold ActivityLogManager.kept. rewrite !andb_true_iff.
    intros [Hs Hf]. split; [exact Hs|apply reset_keeps, Hf].
  - split; [reflexivity|]. apply spec_pipeline_grows. intros log _.
    unfold ActivityLogManager.kept.
    rewrite spec_search_empty, cleared_keeps_all. reflexivity.
Qed.

(** C5.  After any sequence of events (load, typing in the search box,
    changing or resetting filters, clearing, exporting), the displayed list
    is the full list put through, in this order, the case-insensitive
    search over username, fullName, action, entity and details, the
    structured filters (user, action, entity, from-date, to-date), and the
    sort by timestamp.  It is therefore a rearrangement of exactly the
    entries of the full list that pass the search and the filters; it is
    ordered newest first when every timestamp of the full list is valid;
    and an event that relaxes the filtering (emptying the search box,
    resetting one filter or all) leaves the full list alone and yields a
    displayed list that contains the previous one. *)
Theorem filteredLogs_pipeline (evs : list Event) (ev : Event) :
  let st := run initial evs in
  filteredLogs st
  = JSArray.sort (newest_first Date_parse)
      (List.filter (spec_structured (filters st))
         (List.filter (spec_search (searchTerm st)) (logs st)))
  ∧ filteredLogs st ≡ₚ List.filter (kept (searchTerm st) (filters st)) (logs st)
  ∧ (Forall valid_timestamp (logs st) → Sorted not_older (filteredLogs st))
  ∧ (relaxing ev = true →
       logs (step st ev) = logs st
       ∧ filteredLogs st ⊆+ filteredLogs (step st ev)).
Proof.
  intros st.
  assert (Hst : in_sync st) by apply run_in_sync, initial_in_sync.
  split; [exact Hst|]. split; [|split].
  - rewrite Hst. apply spec_pipeline_kept.
  - intros Hvalid. rewrite Hst. apply sort_Sorted.
    do 2 apply filter_valid. exact Hvalid.
  - apply relaxing_grows, Hst.
Qed.

End Pipeline.

Lemma filteredLogs_pipeline_witness :
  let st :=
    run true true "http://localhost:5000" Demo.accra JSDate.parse (λ t, t)
      initial [Mounted (Ok Demo.trail); FilterChange Filters.ToDate "2025-01-14"] in
  let st' :=
    step true true "http://localhost:5000" Demo.accra JSDate.parse (λ t, t)
      st (FilterChange Filters.ToDate EmptyString) in
  filteredLogs st = [Demo.earlier_entry]
  ∧ filteredLogs st' = [Demo.noon_entry; Demo.earlier_entry]
  ∧ Sorted (not_older JSDate.parse) (filteredLogs st)
  ∧ filteredLogs st ⊆+ filteredLogs st'.
Proof.
  intros st st'.
  destruct (filteredLogs_pipeline true true "http://localhost:5000" Demo.accra
              JSDate.parse (λ t, t)
              [Mounted (Ok Demo.trail); FilterChange Filters.ToDate "2025-01-14"]
              (FilterChange Filters.ToDate EmptyString))
    as (_ & _ & Hsorted & Hgrows).
  split; [vm_compute; reflexivity|]. split; [vm_compute; reflexivity|]. split.
  - apply Hsorted. repeat constructor; vm_compute; eauto.
  - apply Hgrows. reflexivity.
Defined.

(** *** The date range *)
Section DateRange.
Variable tza : Z.
Variable Date_parse : string → JSDate.TimeValue.

Lemma from_date_spec (fromDate : string) (log : ActivityLog.t) :
  from_date Date_parse fromDate log = true
  ↔ ∃ t t0, Date_parse (ActivityLog.timestamp log) = Some t
            ∧ Date_parse fromDate = Some t0 ∧ (t0 ≤ t)%Z.
Proof.
  unfold from_date, JSDate.ge, JSDate.le.
  destruct (Date_parse fromDate) as [t0|], (Date_parse _) as [t|]; split;
    try discriminate; try (intros (? & ? & [=] & [=] & _); fail).
  - intros H. apply Z.leb_le in H. eauto.
  - intros (? & ? & [= <-] & [= <-] & H). apply Z.leb_le, H.
Qed.

Lemma to_date_spec (toDate : string) (log : ActivityLog.t) :
  to_date tza Date_parse toDate log = true
  ↔ ∃ t t1, Date_parse (ActivityLog.timestamp log) = Some t
            ∧ end_of_day tza Date_parse toDate = Some t1 ∧ (t ≤ t1)%Z.
Proof.
  unfold to_date, JSDate.le.
  destruct (end_of_day tza Date_parse toDate) as [t1|], (Date_parse _) as [t|];
    split; try discriminate; try (intros (? & ? & [=] & [=] & _); fail).
  - intros H. apply Z.leb_le in H. eauto.
  - intros (? & ? & [= <-] & [= <-] & H). apply Z.leb_le, H.
Qed.

(** Where the upper bound falls when the filter holds the day [day]
    (midnight UTC of that day): east of Greenwich and on it, one second
    before the local midnight that ends [day]; west of Greenwich, one
    second before the local midnight that begins it. *)
Lemma end_of_day_east (toDate : string) (day : Z) :
  Date_parse toDate = Some (JSDate.MakeDate day 0) →
  (0 ≤ tza < JSDate.msPerDay)%Z → (tza mod 1000 = 0)%Z →
  end_of_day tza Date_parse toDate
  = Some (JSDate.MakeDate day (JSDate.MakeTime 23 59 59 0) - tza)%Z.
Proof.
  intros Hp Htz Hms. unfold end_of_day. rewrite Hp. simpl. f_equal.
  unfold JSDate.MakeDate, JSDate.MakeTime, JSDate.Day, JSDate.msFromTime,
    JSDate.msPerDay, JSDate.msPerHour, JSDate.msPerMinute, JSDate.msPerSecond in *.
  replace (day * 86400000 + 0 + tza)%Z with (tza + day * 86400000)%Z by lia.
  rewrite Z.div_add by lia. rewrite (Z.div_small tza) by lia.
  replace (tza + day * 86400000)%Z with (tza + (day * 86400) * 1000)%Z by lia.
  rewrite Z.mod_add by lia. lia.
Qed.

Lemma end_of_day_west (toDate : string) (day : Z) :
  Date_parse toDate = Some (JSDate.MakeDate day 0) →
  (- JSDate.msPerDay ≤ tza < 0)%Z → (tza mod 1000 = 0)%Z →
  end_of_day tza Date_parse toDate
  = Some (JSDate.MakeDate (day - 1) (JSDate.MakeTime 23 59 59 0) - tza)%Z.
Proof.
  intros Hp Htz Hms. unfold end_of_day. rewrite Hp. simpl. f_equal.
  unfold JSDate.MakeDate, JSDate.MakeTime, JSDate.Day, JSDate.msFromTime,
    JSDate.msPerDay, JSDate.msPerHour, JSDate.msPerMinute, JSDate.msPerSecond in *.
  replace (day * 86400000 + 0 + tza)%Z
    with ((tza + 86400000) + (day - 1) * 86400000)%Z by lia.
  rewrite Z.div_add by lia. rewrite (Z.div_small (tza + 86400000)) by lia.
  replace (tza + 86400000 + (day - 1) * 86400000)%Z
    with (tza + (day * 86400) * 1000)%Z by lia.
  rewrite Z.mod_add by lia. lia.
Qed.

End DateRange.

(** C6.  The to-date filter at work in a browser five hours west of
    Greenwich, with the 15th of January 2025 chosen as last day.  The
    entry stamped 12:00 UTC on the 15th, which is 07:00 on the 15th for
    that browser, is dropped: the bound is 04:59:59 UTC on the 15th, the
    last second of the 14th there.  The same list under the same filter in
    a browser on UTC keeps the entry. *)
Theorem to_date_drops_entry_of_last_day :
  JSDate.parse "2025-01-15" = Some 1736899200000%Z
  ∧ JSDate.parse (ActivityLog.timestamp Demo.noon_entry) = Some 1736942400000%Z
  ∧ end_of_day Demo.bogota JSDate.parse "2025-01-15" = Some 1736917199000%Z
  ∧ applyFilters Demo.bogota JSDate.parse Demo.trail EmptyString
      (Demo.only_to "2025-01-15") = [Demo.earlier_entry]
  ∧ applyFilters Demo.accra JSDate.parse Demo.trail EmptyString
      (Demo.only_to "2025-01-15") = [Demo.noon_entry; Demo.earlier_entry].
Proof. vm_compute. repeat split; reflexivity. Qed.

(** *** CSV export *)
Section CsvExport.
Variable formatTimestamp : string → string.

Local Abbreviation csv_line := (csv_line formatTimestamp).
Local Abbreviation spec_csv_row := (spec_csv_row formatTimestamp).
Local Abbreviation csvContent := (csvContent formatTimestamp).
Local Abbreviation single_line := (single_line formatTimestamp).

Lemma csv_line_spec (log : ActivityLog.t) : csv_line log = spec_csv_row log.
Proof.
  unfold ActivityLogManager.csv_line, ActivityLogManager.spec_csv_row,
    csv_fields, quoted.
  simpl. rewrite !append_assoc. reflexivity.
Qed.

Lemma foldl_append {A} (f : A → string) (l : list A) (acc : string) :
  foldl (λ text x, text ++ f x) acc l = acc ++ lines_text (map f l).
Proof.
  revert acc. induction l as [|x l IH]; intros acc; simpl.
  - symmetry. apply append_empty_r.
  - rewrite IH, append_assoc. reflexivity.
Qed.

Lemma csvContent_spec (shown : list ActivityLog.t) :
  csvContent shown = csv_header ++ lines_text (map spec_csv_row shown).
Proof.
  unfold ActivityLogManager.csvContent. rewrite foldl_append. f_equal. f_equal.
  apply map_ext, csv_line_spec.
Qed.

Lemma unescape_other (c : ascii) (rest : string) :
  Ascii.eqb c "034" = false →
  unescape_quotes (String c rest) = String c (unescape_quotes rest).
Proof. intros Hc. simpl. rewrite Hc. destruct rest; reflexivity. Qed.

Lemma unescape_doubled (rest : string) :
  unescape_quotes (dquote ++ dquote ++ rest) = dquote ++ unescape_quotes rest.
Proof. reflexivity. Qed.

Lemma unescape_escape (s : string) : unescape_quotes (escape_quotes s) = s.
Proof.
  induction s as [|c s IH]; [reflexivity|].
  simpl escape_quotes. destruct (Ascii.eqb c "034") eqn:Hc.
  - apply Ascii.eqb_eq in Hc. subst c.
    rewrite unescape_doubled, IH. reflexivity.
  - rewrite unescape_other, IH by exact Hc. reflexivity.
Qed.

Lemma count_newlines_app (a b : string) :
  count_newlines (a ++ b) = (count_newlines a + count_newlines b)%nat.
Proof.
  induction a as [|c a IH]; [reflexivity|].
  rewrite append_cons. simpl. rewrite IH. lia.
Qed.

Lemma count_newlines_join (fields : list string) :
  Forall (λ field, count_newlines field = 0%nat) fields →
  count_newlines (JS.join "," (map quoted fields)) = 0%nat.
Proof.
  induction 1 as [|x l Hx Hl IH]; [reflexivity|].
  assert (Hq : count_newlines (quoted x) = 0%nat).
  { unfold quoted. rewrite !count_newlines_app, Hx. reflexivity. }
  destruct l as [|y l]; [exact Hq|].
  change (count_newlines (quoted x ++ "," ++ JS.join "," (map quoted (y :: l))) = 0%nat).
  rewrite !count_newlines_app, Hq, IH. reflexivity.
Qed.

Lemma count_newlines_row (log : ActivityLog.t) :
  single_line log → count_newlines (spec_csv_row log) = 1%nat.
Proof.
  intros Hlog. unfold ActivityLogManager.spec_csv_row.
  rewrite count_newlines_app, count_newlines_join by exact Hlog. reflexivity.
Qed.

Lemma count_newlines_rows (shown : list ActivityLog.t) :
  Forall single_line shown →
  count_newlines (lines_text (map spec_csv_row shown)) = length shown.
Proof.
  induction 1 as [|log l Hlog Hl IH]; [reflexivity|].
  change (count_newlines (spec_csv_row log ++ lines_text (map spec_csv_row l))
          = S (length l)).
  rewrite count_newlines_app, count_newlines_row, IH by exact Hlog.
  reflexivity.
Qed.

(** C7.  Export changes no cell and asks the browser for one thing only,
    the download of a file named after the day: no request is made.  The
    file's text is a function of the displayed list alone: the header line,
    then one line per displayed entry in display order, each line being its
    seven fields wrapped in double quotes and separated by commas, the
    details field with every double quote doubled (which a reader of the
    file undoes without loss).  When no field of a displayed entry holds a
    line break, the file has one line more than there are displayed
    entries. *)
Theorem handleExport_csv (today : string) (st : State) :
  ∃ content,
    handleExport formatTimestamp today st
    = (st, [Download ("activity_logs_" ++ today ++ ".csv") content])
    ∧ content
      = csv_header
        ++ lines_text
             (map (λ log, JS.join "," (map quoted (csv_fields formatTimestamp log))
                          ++ newline)
                  (filteredLogs st))
    ∧ (∀ log, nth_error (csv_fields formatTimestamp log) 5
              = Some (escape_quotes (ActivityLog.details log))
              ∧ unescape_quotes (escape_quotes (ActivityLog.details log))
                = ActivityLog.details log)
    ∧ (Forall single_line (filteredLogs st) →
       count_newlines content = S (length (filteredLogs st))).
Proof.
  assert (Hc := csvContent_spec (filteredLogs st)).
  exists (csvContent (filteredLogs st)).
  split; [reflexivity|]. split; [exact Hc|]. split.
  - intros log. split; [reflexivity|apply unescape_escape].
  - intros Hlines.
    rewrite Hc, count_newlines_app, count_newlines_rows by exact Hlines.
    reflexivity.
Qed.

End CsvExport.

Lemma handleExport_csv_witness :
  let st := Demo.viewer Demo.accra in
  length (filteredLogs st) = 2%nat
  ∧ ∃ content,
      handleExport (λ t, t) "2025-01-16" st
      = (st, [Download "activity_logs_2025-01-16.csv" content])
      ∧ count_newlines content = 3%nat.
Proof.
  intros st. split; [reflexivity|].
  destruct (handleExport_csv (λ t, t) "2025-01-16" st)
    as (content & Hexport & _ & _ & Hlines).
  exists content. split; [exact Hexport|].
  apply Hlines. repeat constructor.
Defined.

(** *** Clearing the logs *)

(** C8.  Without the delete permission the Clear All Logs button is not
    part of what is rendered, and [handleClearLogs], whatever the answer to
    the confirmation and the outcome of a request would have been, returns
    the state it was given and asks nothing of the browser: no
    confirmation, no request, no timer. *)
Theorem handleClearLogs_without_permission (canViewLogs : bool)
    (apiUrl : string) (confirmed : bool) (response : Outcome unit) (st : State) :
  handleClearLogs false apiUrl confirmed response st = (st, [])
  ∧ shows_clear_button (render canViewLogs false st) = false.
Proof.
  split; [reflexivity|]. unfold render. destruct canViewLogs; reflexivity.
Qed.

Lemma step_ClearLogsClick_cells (canViewLogs canDeleteLogs : bool)
    (apiUrl : string) (tza : Z) (Date_parse : string → JSDate.TimeValue)
    (formatTimestamp : string → string) (confirmed : bool)
    (response : Outcome unit) (st : State) :
  let after := handleClearLogs canDeleteLogs apiUrl confirmed response st in
  logs after.1 = logs st → filteredLogs after.1 = filteredLogs st →
  in_sync tza Date_parse st →
  filteredLogs
    (step canViewLogs canDeleteLogs apiUrl tza Date_parse formatTimestamp st
       (ClearLogsClick confirmed response))
  = filteredLogs st.
Proof.
  intros after Hlogs Hfiltered Hsync.
  pose proof (step_in_sync canViewLogs canDeleteLogs apiUrl tza Date_parse
                formatTimestamp st (ClearLogsClick confirmed response) Hsync)
    as Hsync'.
  unfold in_sync in Hsync, Hsync'. rewrite Hsync', Hsync.
  unfold step. simpl handle. fold after.
  destruct (useEffect_filter_cells tza Date_parse after.1) as (-> & -> & ->).
  rewrite Hlogs. clear. subst after.
  unfold handleClearLogs.
  destruct canDeleteLogs, confirmed, response; reflexivity.
Qed.

(** C9.  When the user declines the confirmation, [handleClearLogs]
    returns the state it was given and makes no request.  When the user
    confirms and the request fails (a response that is not ok, or a
    rejected request), the log list and the displayed list are what they
    were, also once the filtering effect has run; the notification is an
    error carrying the failure's message; and a timer of 3000 ms is set
    whose callback removes the notification.  Only when the request
    succeeds are the two lists emptied. *)
Theorem handleClearLogs_failure_keeps_logs (canViewLogs : bool)
    (apiUrl : string) (tza : Z) (Date_parse : string → JSDate.TimeValue)
    (formatTimestamp : string → string) (response : Outcome unit) (st : State)
    (Hsync : in_sync tza Date_parse st) :
  let declined := handleClearLogs true apiUrl false response st in
  let confirmed := handleClearLogs true apiUrl true response st in
  let settled :=
    step canViewLogs true apiUrl tza Date_parse formatTimestamp st
      (ClearLogsClick true response) in
  declined.1 = st
  ∧ (∀ method url, ¬ In (Fetch method url) declined.2)
  ∧ In (Fetch "DELETE" (apiUrl ++ "/api/logs/clear")) confirmed.2
  ∧ match response with
    | Ok _ =>
        logs confirmed.1 = [] ∧ filteredLogs confirmed.1 = []
        ∧ logs settled = [] ∧ filteredLogs settled = []
    | _ =>
        logs confirmed.1 = logs st
        ∧ filteredLogs confirmed.1 = filteredLogs st
        ∧ logs settled = logs st
        ∧ filteredLogs settled = filteredLogs st
        ∧ notification confirmed.1
          = Some {| type := error_type;
                    message := error_message "Failed to clear logs: "
                                 "Failed to clear activity logs" response |}
        ∧ In (SetTimeout ClearNotification 3000) confirmed.2
        ∧ notification (fire ClearNotification confirmed.1) = None
    end.
Proof.
  intros declined confirmed settled.
  split; [reflexivity|]. split.
  { intros method url [H|[]]. discriminate. }
  split.
  { subst confirmed. unfold handleClearLogs. destruct response; simpl; auto. }
  assert (Hl : logs settled = logs (handleClearLogs true apiUrl true response st).1).
  { apply useEffect_filter_cells. }
  destruct response as [data|status|reason].
  - split; [reflexivity|]. split; [reflexivity|]. split; [exact Hl|].
    subst settled. unfold step, useEffect_filter. reflexivity.
  - repeat split; try exact Hl; simpl; auto.
    apply step_ClearLogsClick_cells; [reflexivity..|exact Hsync].
  - repeat split; try exact Hl; simpl; auto.
    apply step_ClearLogsClick_cells; [reflexivity..|exact Hsync].
Qed.

Lemma handleClearLogs_failure_keeps_logs_witness :
  let st := Demo.viewer Demo.accra in
  let after := handleClearLogs true "http://localhost:5000" true (NotOk 500) st in
  filteredLogs after.1 = [Demo.noon_entry; Demo.earlier_entry]
  ∧ notification after.1
    = Some {| type := error_type; message := "Failed to clear logs: 500" |}.
Proof.
  intros st after.
  assert (Hsync : in_sync Demo.accra JSDate.parse st).
  { apply run_in_sync, initial_in_sync. }
  pose proof (handleClearLogs_failure_keeps_logs true "http://localhost:5000"
                Demo.accra JSDate.parse (λ t, t) (NotOk 500) st Hsync) as H.
  cbv beta iota zeta in H. destruct H as (_ & _ & _ & _ & Hf & _ & _ & Hn & _).
  split.
  - subst after. rewrite Hf. vm_compute. reflexivity.
  - subst after. rewrite Hn. vm_compute. reflexivity.
Defined.

End ActivityLogSpec.

(** ** Further properties of the ballot component *)
Module CandidatesExtra.
Import Candidates CandidatesView CandidatesMount CandidatesSpec.

(** *** Cards *)

(** X1.  What the cards of a position show after a click.  After a vote
    for [candidate] in [position], a card of that position is marked
    selected exactly when its candidate yields the same stored id as
    [candidate] does (so several cards are marked when several candidates
    yield the same id), and the none-of-the-listed card is not highlighted.
    After an abstention, no candidate card of the position is marked and
    the none card is highlighted.  Either click leaves the marks of every
    other position as they were. *)
Theorem cards_after_click (candidate : Candidate.t) (position : string)
    (st : State) :
  let voted := handleVote candidate position st in
  let abstained := handleNoneSelected position st in
  (∀ c, isSelected voted position c = true
        ↔ candidateId_of c = candidateId_of candidate)
  ∧ noneHighlighted voted position = false
  ∧ (∀ c, isSelected abstained position c = false)
  ∧ noneHighlighted abstained position = true
  ∧ (∀ other c, other ≠ position →
       isSelected voted other c = isSelected st other c
       ∧ noneHighlighted voted other = noneHighlighted st other
       ∧ isSelected abstained other c = isSelected st other c
       ∧ noneHighlighted abstained other = noneHighlighted st other).
Proof.
  intros voted abstained. unfold isSelected, noneHighlighted. simpl.
  repeat split.
  - rewrite bool_decide_eq_true, lookup_insert_eq. intros [= H]. congruence.
  - rewrite bool_decide_eq_true, lookup_insert_eq. intros ->. reflexivity.
  - rewrite lookup_insert_eq. reflexivity.
  - intros c. rewrite lookup_delete_eq. reflexivity.
  - rewrite lookup_insert_eq. reflexivity.
  - rewrite lookup_insert_ne by congruence. reflexivity.
  - rewrite lookup_insert_ne by congruence. reflexivity.
  - rewrite lookup_delete_ne by congruence. reflexivity.
  - rewrite lookup_insert_ne by congruence. reflexivity.
Qed.

(** *** A decided position stays decided *)
Lemma position_done_step (st : State) (ev : Event) (p : string) :
  position_done st p = true → position_done (step st ev) p = true.
Proof.
  rewrite !position_done_spec.
  change (selectedCandidateIds (step st ev))
    with (selectedCandidateIds (handle ev st)).
  change (noneSelected (step st ev)) with (noneSelected (handle ev st)).
  pose proof (handle_selection_cells ev st) as Hcells.
  destruct ev as [c q|q| | |r]; destruct Hcells as [Es En];
    rewrite Es, En; try tauto.
  - intros H. destruct (decide (q = p)) as [->|Hne].
    + left. rewrite lookup_insert_eq. eauto.
    + rewrite !lookup_insert_ne by exact Hne. exact H.
  - intros H. destruct (decide (q = p)) as [->|Hne].
    + right. apply lookup_insert_eq.
    + rewrite lookup_delete_ne, lookup_insert_ne by exact Hne. exact H.
Qed.

Lemma position_done_run (st : State) (evs : list Event) (p : string) :
  position_done st p = true → position_done (run st evs) p = true.
Proof.
  revert st. induction evs as [|ev evs IH]; intros st H; [exact H|].
  apply IH, position_done_step, H.
Qed.

(** X2.  Nothing the voter or the network does returns a position to the
    undecided state: a position that has a selected id or a true abstention
    flag still has one after any sequence of votes, abstentions, confirm
    attempts and refreshes, whether or not a refresh changes the ballot.
    So a ballot that passed the completeness test passes it again after
    any such sequence that leaves the list of positions the same. *)
Theorem decided_stays_decided (st : State) (evs : list Event) :
  (∀ p, position_done st p = true → position_done (run st evs) p = true)
  ∧ (positions (run st evs) = positions st →
     allPositionsSelected st = true → allPositionsSelected (run st evs) = true).
Proof.
  split; [intros p; apply position_done_run|].
  intros Hsame. unfold allPositionsSelected. rewrite Hsame, !forallb_forall.
  intros H p Hp. apply position_done_run, H, Hp.
Qed.

Lemma decided_stays_decided_witness :
  position_done
    (run Demo.fully_voted
       [RefreshClick; RefreshSettled (Fulfilled (Some Demo.ballot_without_alice));
        Vote Demo.bob "President"]) "Secretary" = true
  ∧ allPositionsSelected
      (run Demo.fully_voted [Vote Demo.bob "President"; ConfirmVote;
                             NoneSelected "President"]) = true.
Proof.
  split.
  - apply (proj1 (decided_stays_decided Demo.fully_voted
                    [RefreshClick;
                     RefreshSettled (Fulfilled (Some Demo.ballot_without_alice));
                     Vote Demo.bob "President"])).
    reflexivity.
  - apply (proj2 (decided_stays_decided Demo.fully_voted
                    [Vote Demo.bob "President"; ConfirmVote;
                     NoneSelected "President"]));
      reflexivity.
Defined.

(** *** The payload of the confirmation *)
Lemma candidateId_of_id (c : Candidate.t) (i : string) :
  Candidate.id c = Some i → JS.truthy i = true → candidateId_of c = i.
Proof.
  intros Hid Hi. unfold candidateId_of, JS.or_else. rewrite Hid, Hi, Hi.
  reflexivity.
Qed.

Lemma candidateId_of_underscore_id (c : Candidate.t) (i : string) :
  Candidate.id c = None → Candidate._id c = Some i → JS.truthy i = true →
  candidateId_of c = i.
Proof.
  intros Hid H_id Hi. unfold candidateId_of, JS.or_else.
  rewrite Hid, H_id, Hi. reflexivity.
Qed.

Lemma get_In {V} (o : JS.Obj V) (k : string) (v : V) :
  JS.get o k = Some v → In (k, v) o.
Proof.
  induction o as [|[k' v'] o IH]; simpl; [discriminate|].
  destruct (String.eqb k' k) eqn:Hk.
  - apply String.eqb_eq in Hk. intros [= ->]. left. congruence.
  - intros H. right. apply IH, H.
Qed.

Lemma find_candidate_Some (cbp : CandidatesByPosition) (p i : string)
    (c : Candidate.t) :
  find_candidate cbp p i = Some c →
  ∃ cs, JS.get cbp p = Some cs ∧ In c cs ∧ Candidate.id c = Some i.
Proof.
  unfold find_candidate. destruct (JS.get cbp p) as [cs|]; [|discriminate].
  simpl. intros H. apply find_some in H as [Hin Hid].
  apply bool_decide_eq_true in Hid. eauto.
Qed.

(** X3.  Whatever confirm hands over is on the ballot now displayed: a
    candidate under a position in the payload is a member of the list the
    current ballot holds for that position, and its [id] is the id stored
    for the position. *)
Theorem payload_on_ballot (st : State) (path : string) (payload : ConfirmState)
    (p : string) (c : Candidate.t)
    (Hnav : (handleConfirmVote st).2 = Some (Navigate path payload))
    (Hp : selectedCandidates payload !! p = Some c) :
  ∃ cs i,
    In (p, cs) (candidatesByPosition st) ∧ In c cs
    ∧ selectedCandidateIds st !! p = Some i ∧ Candidate.id c = Some i.
Proof.
  unfold handleConfirmVote in Hnav.
  destruct (allPositionsSelected st); [|discriminate].
  injection Hnav as _ <-. simpl in Hp.
  rewrite validSelectedCandidates_lookup in Hp.
  destruct (selectedCandidateIds st !! p) as [i|]; [|discriminate].
  apply find_candidate_Some in Hp as (cs & Hget & Hin & Hid).
  exists cs, i. auto using get_In.
Qed.

Lemma payload_on_ballot_witness :
  ∃ cs i,
    In ("President", cs) (candidatesByPosition Demo.fully_voted)
    ∧ In Demo.alice cs
    ∧ selectedCandidateIds Demo.fully_voted !! "President" = Some i
    ∧ Candidate.id Demo.alice = Some i.
Proof.
  apply (payload_on_ballot Demo.fully_voted "/confirm-vote"
           {| selectedCandidates := validSelectedCandidates Demo.fully_voted;
              confirm_noneSelected := noneSelected Demo.fully_voted |}).
  - reflexivity.
  - vm_compute. reflexivity.
Defined.

Lemma find_distinct (cs : list Candidate.t) (c : Candidate.t) (i : string) :
  distinct_ids cs → In c cs → Candidate.id c = Some i →
  List.find (λ c', bool_decide (Candidate.id c' = Some i)) cs = Some c.
Proof.
  unfold distinct_ids. induction cs as [|x cs IH]; simpl; [tauto|].
  intros Hnd Hin Hid. apply NoDup_cons in Hnd as [Hx Hnd].
  case_bool_decide as Hxi.
  - destruct Hin as [->|Hin]; [reflexivity|]. exfalso. apply Hx.
    rewrite Hxi, <- Hid. apply list_elem_of_In, in_map, Hin.
  - destruct Hin as [->|Hin]; [congruence|]. apply IH; assumption.
Qed.

(** X4.  A vote comes back at confirmation.  If [candidate] is on the list
    of [position], has a non-empty [id], and ids are distinct within that
    list, then after the vote the stored id is that [id], and a confirm
    that goes through hands over exactly [candidate] for [position]. *)
Theorem vote_then_confirm (candidate : Candidate.t) (position i : string)
    (cs : list Candidate.t) (st : State)
    (Hget : JS.get (candidatesByPosition st) position = Some cs)
    (Hin : In candidate cs)
    (Hid : Candidate.id candidate = Some i)
    (Hi : JS.truthy i = true)
    (Hdistinct : distinct_ids cs) :
  let st1 := step st (Vote candidate position) in
  selectedCandidateIds st1 !! position = Some i
  ∧ (allPositionsSelected st1 = true →
     ∃ payload,
       handleConfirmVote st1 = (st1, Some (Navigate "/confirm-vote" payload))
       ∧ selectedCandidates payload !! position = Some candidate).
Proof.
  intros st1.
  assert (Hsel : selectedCandidateIds st1 !! position = Some i).
  { unfold st1. simpl. rewrite (candidateId_of_id candidate i Hid Hi).
    apply lookup_insert_eq. }
  split; [exact Hsel|]. intros Hall.
  unfold handleConfirmVote. rewrite Hall.
  eexists. split; [reflexivity|]. simpl.
  change (validSelectedCandidates st1 !! position = Some candidate).
  rewrite validSelectedCandidates_lookup, Hsel. simpl.
  unfold find_candidate.
  change (candidatesByPosition st1) with (candidatesByPosition st).
  rewrite Hget. simpl. apply find_distinct; assumption.
Qed.

Lemma vote_then_confirm_witness :
  let st1 := step Demo.fully_voted (Vote Demo.bob "President") in
  ∃ payload,
    handleConfirmVote st1 = (st1, Some (Navigate "/confirm-vote" payload))
    ∧ selectedCandidates payload !! "President" = Some Demo.bob.
Proof.
  apply (vote_then_confirm Demo.bob "President" "c2" [Demo.alice; Demo.bob]
           Demo.fully_voted).
  - reflexivity.
  - simpl. auto.
  - reflexivity.
  - reflexivity.
  - unfold distinct_ids. simpl. apply NoDup_cons. split.
    + intros H. apply list_elem_of_In in H. simpl in H.
      destruct H as [[=]|[]].
    + apply NoDup_singleton.
  - reflexivity.
Defined.

(** X5.  A candidate that reached the client with [_id] only can be
    chosen but is not handed over.  The vote stores its [_id]; the position
    then counts as decided; and since the lookup at confirmation compares
    the stored value with [id], a confirm that goes through leaves the
    position out of the payload, unless some candidate of the position has
    that value as its [id]. *)
Theorem vote_by_underscore_id_is_dropped (candidate : Candidate.t)
    (position i : string) (st : State)
    (Hid : Candidate.id candidate = None)
    (H_id : Candidate._id candidate = Some i)
    (Hi : JS.truthy i = true)
    (Hno : ∀ cs c, JS.get (candidatesByPosition st) position = Some cs →
             In c cs → Candidate.id c ≠ Some i) :
  let st1 := step st (Vote candidate position) in
  selectedCandidateIds st1 !! position = Some i
  ∧ position_done st1 position = true
  ∧ (allPositionsSelected st1 = true →
     ∃ payload,
       handleConfirmVote st1 = (st1, Some (Navigate "/confirm-vote" payload))
       ∧ selectedCandidates payload !! position = None
       ∧ confirm_noneSelected payload !! position = Some false).
Proof.
  intros st1.
  assert (Hsel : selectedCandidateIds st1 !! position = Some i).
  { unfold st1. simpl.
    rewrite (candidateId_of_underscore_id candidate i Hid H_id Hi).
    apply lookup_insert_eq. }
  split; [exact Hsel|]. split.
  { apply position_done_spec. left. rewrite Hsel. eauto. }
  intros Hall. unfold handleConfirmVote. rewrite Hall.
  eexists. split; [reflexivity|]. simpl. split.
  - change (validSelectedCandidates st1 !! position = None).
    rewrite validSelectedCandidates_lookup, Hsel.
    change (find_candidate (candidatesByPosition st) position i = None).
    destruct (find_candidate (candidatesByPosition st) position i) as [c|] eqn:Hf;
      [|reflexivity].
    apply find_candidate_Some in Hf as (cs & Hget & Hin & Hc).
    exfalso. exact (Hno cs c Hget Hin Hc).
  - apply lookup_insert_eq.
Qed.

Lemma vote_by_underscore_id_is_dropped_witness :
  let st1 := step Demo2.loaded_with_erin (Vote Demo2.erin "Secretary") in
  ∃ payload,
    handleConfirmVote st1 = (st1, Some (Navigate "/confirm-vote" payload))
    ∧ selectedCandidates payload !! "Secretary" = None
    ∧ confirm_noneSelected payload !! "Secretary" = Some false.
Proof.
  apply (vote_by_underscore_id_is_dropped Demo2.erin "Secretary" "65f1c0ffee"
           Demo2.loaded_with_erin eq_refl eq_refl eq_refl).
  - intros cs c Hget Hc. vm_compute in Hget. injection Hget as <-.
    simpl in Hc. destruct Hc as [<-|[<-|[]]]; discriminate.
  - vm_compute. reflexivity.
Defined.

(** X6.  In a payload produced after any sequence of events that started
    with no selection and no abstention, no position carries both a
    candidate and a true abstention flag. *)
Theorem payload_exclusive (st0 : State) (evs : list Event) (path : string)
    (payload : ConfirmState)
    (Hsel : selectedCandidateIds st0 = ∅) (Hnone : noneSelected st0 = ∅)
    (Hnav : (handleConfirmVote (run st0 evs)).2 = Some (Navigate path payload)) :
  ∀ p, ¬ (is_Some (selectedCandidates payload !! p)
          ∧ confirm_noneSelected payload !! p = Some true).
Proof.
  assert (Hex : exclusive (run st0 evs)).
  { apply exclusive_run. intros q [_ Hq]. rewrite Hnone, lookup_empty in Hq.
    discriminate. }
  unfold handleConfirmVote in Hnav.
  destruct (allPositionsSelected (run st0 evs)); [|discriminate].
  injection Hnav as _ <-. simpl. intros p [[c Hc] Hn].
  rewrite validSelectedCandidates_lookup in Hc.
  apply (Hex p). split; [|exact Hn].
  destruct (selectedCandidateIds (run st0 evs) !! p); [eauto|discriminate].
Qed.

Lemma payload_exclusive_witness :
  ¬ (is_Some (validSelectedCandidates Demo.fully_voted !! "Secretary")
     ∧ noneSelected Demo.fully_voted !! "Secretary" = Some true).
Proof.
  exact (payload_exclusive initial
           [RefreshClick; RefreshSettled (Fulfilled (Some Demo.ballot));
            Vote Demo.alice "President"; NoneSelected "Secretary"]
           "/confirm-vote"
           {| selectedCandidates := validSelectedCandidates Demo.fully_voted;
              confirm_noneSelected := noneSelected Demo.fully_voted |}
           eq_refl eq_refl eq_refl "Secretary").
Defined.

(** *** An empty ballot *)
Lemma find_candidate_nil (p i : string) : find_candidate [] p i = None.
Proof. reflexivity. Qed.

(** X7.  With no position on the ballot the completeness test holds
    vacuously.  After a refresh that brought no data or no position,
    confirm navigates to the confirmation stage, whatever had been chosen
    before; the payload then holds no candidate at all, and the abstention
    map of before the refresh. *)
Theorem confirm_on_empty_ballot (st : State)
    (data : option CandidatesByPosition)
    (Hempty : JS.keys (default [] data) = []) :
  let st' := run st [RefreshClick; RefreshSettled (Fulfilled data)] in
  ∃ payload,
    handleConfirmVote st' = (st', Some (Navigate "/confirm-vote" payload))
    ∧ selectedCandidates payload = ∅
    ∧ confirm_noneSelected payload = noneSelected st.
Proof.
  intros st'.
  assert (Hcells : positions st' = [] ∧ candidatesByPosition st' = []
                   ∧ noneSelected st' = noneSelected st).
  { unfold st'. destruct data as [data|]; simpl in *.
    - rewrite Hempty. simpl. auto.
    - auto. }
  destruct Hcells as (Hp & Hc & Hn).
  unfold handleConfirmVote, allPositionsSelected. rewrite Hp. simpl.
  eexists. split; [reflexivity|]. simpl. split; [|exact Hn].
  apply map_eq. intros p.
  rewrite validSelectedCandidates_lookup, Hc, lookup_empty.
  destruct (selectedCandidateIds st' !! p); reflexivity.
Qed.

Lemma confirm_on_empty_ballot_witness :
  let st' := run Demo.half_voted [RefreshClick; RefreshSettled (Fulfilled (Some []))] in
  selectedCandidateIds st' !! "President" = Some "c1"
  ∧ ∃ payload,
      handleConfirmVote st' = (st', Some (Navigate "/confirm-vote" payload))
      ∧ selectedCandidates payload = ∅
      ∧ confirm_noneSelected payload = noneSelected Demo.half_voted.
Proof.
  split; [vm_compute; reflexivity|].
  apply (confirm_on_empty_ballot Demo.half_voted (Some [])). reflexivity.
Defined.

(** *** The search box *)
Lemma set_fresh {V} (o : JS.Obj V) (k : string) (v : V) :
  k ∉ JS.keys o → JSObject.set o k v = (o ++ [(k, v)])%list.
Proof.
  induction o as [|[k' v'] o IH]; simpl; [reflexivity|].
  intros Hk. apply not_elem_of_cons in Hk as [Hne Hk].
  destruct (String.eqb k' k) eqn:Heq.
  - apply String.eqb_eq in Heq. congruence.
  - rewrite IH by exact Hk. reflexivity.
Qed.

Lemma search_reducer_fresh (term : string) (acc : CandidatesByPosition)
    (entry : string * list Candidate.t) :
  entry.1 ∉ JS.keys acc →
  search_reducer term acc entry = (acc ++ shown_entry term entry)%list.
Proof.
  destruct entry as [p cs]. intros Hp.
  unfold search_reducer, shown_entry. simpl in *.
  destruct (0 <? _)%nat; [apply set_fresh, Hp|symmetry; apply app_nil_r].
Qed.

Lemma keys_shown_entry (term : string) (entry : string * list Candidate.t) :
  JS.keys (shown_entry term entry) `sublist_of` [entry.1].
Proof.
  unfold shown_entry. destruct (0 <? _)%nat; simpl.
  - reflexivity.
  - apply sublist_nil_l.
Qed.

Lemma keys_flat_map (term : string) (l : CandidatesByPosition) :
  JS.keys (flat_map (shown_entry term) l) `sublist_of` JS.keys l.
Proof.
  induction l as [|entry l IH]; simpl; [constructor|].
  unfold JS.keys in *. rewrite fmap_app.
  change (entry.1 :: l.*1) with ([entry.1] ++ l.*1)%list.
  apply sublist_app; [apply keys_shown_entry|exact IH].
Qed.

Lemma foldl_search_reducer (term : string) (l acc : CandidatesByPosition) :
  NoDup (JS.keys acc ++ JS.keys l)%list →
  foldl (search_reducer term) acc l
  = (acc ++ flat_map (shown_entry term) l)%list.
Proof.
  revert acc. induction l as [|entry l IH]; intros acc Hnd; simpl.
  - symmetry. apply app_nil_r.
  - simpl in Hnd. apply NoDup_app in Hnd as (Hacc & Hdisj & Hl).
    apply NoDup_cons in Hl as [Hentry Hl].
    assert (Hfresh : entry.1 ∉ JS.keys acc).
    { intros Hin. apply (Hdisj _ Hin). left. }
    rewrite search_reducer_fresh by exact Hfresh.
    rewrite IH, <- app_assoc; [reflexivity|].
    unfold JS.keys in *. rewrite fmap_app. apply NoDup_app. split; [|split].
    + apply NoDup_app. split; [exact Hacc|]. split.
      * intros x Hx Hx'.
        apply (λ H, elem_of_sublist _ _ _ H (keys_shown_entry term entry)) in Hx'.
        apply list_elem_of_singleton in Hx'. subst x. exact (Hfresh Hx).
      * eapply sublist_NoDup; [apply NoDup_singleton|apply keys_shown_entry].
    + intros x Hx Hx'. apply elem_of_app in Hx as [Hx|Hx].
      * apply (Hdisj _ Hx). right. exact Hx'.
      * apply (λ H, elem_of_sublist _ _ _ H (keys_shown_entry term entry)) in Hx.
        apply list_elem_of_singleton in Hx. subst x. exact (Hentry Hx').
    + exact Hl.
Qed.

Lemma get_not_key {V} (o : JS.Obj V) (k : string) :
  k ∉ JS.keys o → JS.get o k = None.
Proof.
  induction o as [|[k' v'] o IH]; simpl; [reflexivity|].
  intros Hk. apply not_elem_of_cons in Hk as [Hne Hk].
  destruct (String.eqb k' k) eqn:Heq; [|apply IH, Hk].
  apply String.eqb_eq in Heq. congruence.
Qed.

Lemma get_flat_map (term : string) (l : CandidatesByPosition) (p : string) :
  NoDup (JS.keys l) →
  JS.get (flat_map (shown_entry term) l) p
  = match JS.get l p with
    | Some cs =>
        match List.filter (search_matches term p) cs with
        | [] => None
        | c :: rest => Some (c :: rest)
        end
    | None => None
    end.
Proof.
  induction l as [|[k cs] l IH]; intros Hnd; [reflexivity|].
  apply NoDup_cons in Hnd as [Hk Hnd]. simpl.
  unfold shown_entry at 1. simpl.
  destruct (String.eqb k p) eqn:Heq.
  - apply String.eqb_eq in Heq. subst k.
    destruct (List.filter (search_matches term p) cs) as [|c rest]; simpl.
    + apply get_not_key. intros Hin. apply Hk.
      exact (elem_of_sublist _ _ _ Hin (keys_flat_map term l)).
    + rewrite String.eqb_refl. reflexivity.
  - destruct (List.filter (search_matches term k) cs) as [|c rest]; simpl.
    + apply IH, Hnd.
    + rewrite Heq. apply IH, Hnd.
Qed.

(** X8.  What the search box shows.  For a ballot (an object, so with
    distinct position names) and a non-empty term, a position is shown
    exactly when one of its candidates matches (by its name or by the
    position's name), and then with exactly its matching candidates in
    ballot order; the positions shown keep their ballot order.  With an
    empty term the ballot is shown as it is. *)
Theorem filteredCandidates_shown (term : string) (cbp : CandidatesByPosition)
    (Hkeys : NoDup (JS.keys cbp)) (Hterm : JS.truthy term = true) :
  (∀ p, JS.get (filteredCandidates term cbp) p
        = match JS.get cbp p with
          | Some cs =>
              match List.filter (search_matches term p) cs with
              | [] => None
              | c :: rest => Some (c :: rest)
              end
          | None => None
          end)
  ∧ JS.keys (filteredCandidates term cbp) `sublist_of` JS.keys cbp
  ∧ filteredCandidates EmptyString cbp = cbp.
Proof.
  unfold filteredCandidates. rewrite Hterm.
  rewrite foldl_search_reducer by exact Hkeys. simpl.
  split; [|split].
  - intros p. apply get_flat_map, Hkeys.
  - apply keys_flat_map.
  - reflexivity.
Qed.

Lemma filteredCandidates_shown_witness :
  JS.get (filteredCandidates "BOB" Demo.ballot) "President" = Some [Demo.bob]
  ∧ JS.get (filteredCandidates "BOB" Demo.ballot) "Secretary" = None.
Proof.
  assert (Hkeys : NoDup (JS.keys Demo.ballot)).
  { apply NoDup_cons. split; [|apply NoDup_singleton].
    intros H. apply list_elem_of_singleton in H. discriminate. }
  destruct (filteredCandidates_shown "BOB" Demo.ballot Hkeys eq_refl)
    as (Hget & _ & _).
  rewrite !Hget. split; reflexivity.
Defined.

Lemma toLowerCase_truthy (s : string) :
  JS.truthy (JS.toLowerCase s) = JS.truthy s.
Proof. destruct s; reflexivity. Qed.

Lemma startsWith_refl (s : string) : JS.startsWith s s = true.
Proof.
  induction s as [|c s IH]; simpl; [reflexivity|].
  rewrite Ascii.eqb_refl. exact IH.
Qed.

Lemma includes_refl (s : string) : JS.includes s s = true.
Proof. destruct s; simpl; [reflexivity|]. rewrite Ascii.eqb_refl, startsWith_refl. reflexivity. Qed.

Lemma foldl_pointwise {A B} (f g : A → B → A) (l : list B) (a : A) :
  (∀ x y, f x y = g x y) → foldl f a l = foldl g a l.
Proof.
  intros Hfg. revert a. induction l as [|y l IH]; intros a; simpl; [reflexivity|].
  rewrite Hfg. apply IH.
Qed.

Lemma filter_pass {A} (f : A → bool) (l : list A) :
  (∀ x, f x = true) → List.filter f l = l.
Proof.
  intros Hf. induction l as [|x l IH]; simpl; [reflexivity|].
  rewrite Hf, IH. reflexivity.
Qed.

(** X9.  The search box ignores letter case: two terms that differ only
    in the case of their letters show the same thing.  And a term that is,
    case apart, the name of a position with candidates shows that position
    with all of them. *)
Theorem search_ignores_case (term term' : string) (cbp : CandidatesByPosition)
    (Hcase : JS.toLowerCase term = JS.toLowerCase term') :
  filteredCandidates term cbp = filteredCandidates term' cbp
  ∧ (∀ c rest, NoDup (JS.keys cbp) → JS.truthy term' = true →
       JS.get cbp term' = Some (c :: rest) →
       JS.get (filteredCandidates term cbp) term' = Some (c :: rest)).
Proof.
  assert (Ht : JS.truthy term = JS.truthy term').
  { rewrite <- (toLowerCase_truthy term), Hcase. apply toLowerCase_truthy. }
  split.
  - unfold filteredCandidates. rewrite Ht.
    destruct (JS.truthy term'); [|reflexivity].
    apply foldl_pointwise. intros acc [p cs].
    unfold search_reducer, search_matches. rewrite Hcase. reflexivity.
  - intros c rest Hkeys Hterm' Hget.
    assert (Hterm : JS.truthy term = true) by (rewrite Ht; exact Hterm').
    unfold filteredCandidates. rewrite Hterm.
    rewrite foldl_search_reducer by exact Hkeys. rewrite app_nil_l.
    rewrite get_flat_map, Hget by exact Hkeys.
    rewrite filter_pass; [reflexivity|].
    intros x. unfold search_matches. rewrite Hcase, includes_refl.
    apply orb_true_r.
Qed.

Lemma search_ignores_case_witness :
  filteredCandidates "SECRETARY" Demo.ballot
  = filteredCandidates "Secretary" Demo.ballot
  ∧ JS.get (filteredCandidates "SECRETARY" Demo.ballot) "Secretary"
    = Some [Demo.carol].
Proof.
  destruct (search_ignores_case "SECRETARY" "Secretary" Demo.ballot eq_refl)
    as [Heq Hall].
  split; [exact Heq|]. apply Hall; [|reflexivity..].
  apply NoDup_cons. split; [|apply NoDup_singleton].
  intros H. apply list_elem_of_singleton in H. discriminate.
Defined.

(** *** Loading on mount *)
Lemma filter_unselected_all (st : State) :
  selectedCandidateIds st = ∅ → noneSelected st = ∅ →
  filter (λ p, is_unselected st p = true) (positions st) = positions st.
Proof.
  intros Hsel Hnone. induction (positions st) as [|p l IH]; [reflexivity|].
  rewrite filter_cons, IH.
  destruct (decide (is_unselected st p = true)) as [|Hn]; [reflexivity|].
  exfalso. apply Hn. apply is_unselected_spec.
  rewrite Hsel, Hnone, !lookup_empty. split; [reflexivity|discriminate].
Qed.

(** X10.  The two mount effects ask for the ballot exactly when a
    non-empty voter id is stored (the first one also needs a user, and
    otherwise navigates to the root); the request then goes to the
    for-voter address of that id with a 15000 ms timeout.  Without a voter
    id both leave the ballot and the selections alone, stop the loading
    indicator and set the voter-id message, and the component renders the
    voter-id notice rather than the ballot. *)
Theorem mount_needs_voter_id (apiUrl : string) (voterId : option string)
    (r : Response) (st : State) :
  let second := useEffect_mount apiUrl voterId r st in
  let first := useEffect_user true apiUrl voterId r st in
  ((∃ url timeout, In (Get url timeout) second.2) ↔ is_Some (stored voterId))
  ∧ (∀ v, stored voterId = Some v →
       In (Get (apiUrl ++ "/api/candidates/for-voter?voterId=" ++ v) 15000)
          second.2
       ∧ (∀ st1 effects, first = Some (st1, effects) →
            effects
            = [Get (apiUrl ++ "/api/candidates/for-voter?voterId=" ++ v) 15000])
       ∧ screen true voterId = BallotPage)
  ∧ (stored voterId = None →
       first = Some (second.1, [])
       ∧ second.2 = []
       ∧ candidatesByPosition second.1 = candidatesByPosition st
       ∧ positions second.1 = positions st
       ∧ selectedCandidateIds second.1 = selectedCandidateIds st
       ∧ noneSelected second.1 = noneSelected st
       ∧ loading second.1 = false
       ∧ error second.1 = "Please enter your Voter ID to view candidates."
       ∧ screen true voterId = VoterIdRequired)
  ∧ useEffect_user false apiUrl voterId r st = Some (st, [GoTo "/"])
  ∧ screen false voterId = Blank.
Proof.
  intros second first. unfold second, first, useEffect_mount, useEffect_user, screen.
  simpl. destruct (stored voterId) as [v|].
  - split; [|split; [|split]].
    + split; [eauto|]. intros _.
      destruct r as [[data|]| |]; simpl; [case_bool_decide|..]; simpl; eauto.
    + intros v' [= <-]. split; [|split; [|reflexivity]].
      * destruct r as [[data|]| |]; simpl; [case_bool_decide|..]; simpl; auto.
      * intros st1 effects.
        destruct r as [[data|]| |]; simpl; intros [=]; subst; reflexivity.
    + discriminate.
    + split; reflexivity.
  - split; [|split; [|split]].
    + split; [intros (url & t & [])|intros [? [=]]].
    + discriminate.
    + intros _. repeat split.
    + split; reflexivity.
Qed.

Lemma mount_needs_voter_id_witness :
  error (useEffect_mount "http://localhost:5000" (Some EmptyString)
           (Body (Some Demo.ballot)) initial).1
  = "Please enter your Voter ID to view candidates.".
Proof.
  apply (mount_needs_voter_id "http://localhost:5000" (Some EmptyString)
           (Body (Some Demo.ballot)) initial).
  reflexivity.
Defined.

(** X11.  A successful first load starts the voter afresh: whatever was
    selected or abstained before, every position of the loaded ballot is
    then undecided; so, the ballot having at least one position, confirm
    is refused and its message names every position of the ballot in
    order. *)
Theorem first_load_starts_afresh (apiUrl v : string)
    (data : CandidatesByPosition) (st : State)
    (Hv : JS.truthy v = true) (Hdata : data ≠ []) :
  ∃ st1 effects,
    useEffect_user true apiUrl (Some v) (Body (Some data)) st
    = Some (st1, effects)
    ∧ selectedCandidateIds st1 = ∅ ∧ noneSelected st1 = ∅
    ∧ candidatesByPosition st1 = data
    ∧ unselectedPositions (useEffect_unselected st1) = JS.keys data
    ∧ (handleConfirmVote (useEffect_unselected st1)).2 = None
    ∧ error (handleConfirmVote (useEffect_unselected st1)).1
      = "Please make a selection for each position: "
        ++ JS.join ", " (JS.keys data).
Proof.
  unfold useEffect_user, stored. simpl. rewrite Hv.
  eexists _, _. split; [reflexivity|].
  split; [reflexivity|]. split; [reflexivity|]. split; [reflexivity|].
  set (st1 := first_loaded data st).
  assert (Hun : unselectedPositions (useEffect_unselected st1) = JS.keys data).
  { simpl. apply (filter_unselected_all st1); reflexivity. }
  split; [exact Hun|].
  assert (Hall : allPositionsSelected (useEffect_unselected st1) = false).
  { destruct data as [|[p cs] data]; [congruence|]. reflexivity. }
  unfold handleConfirmVote. rewrite Hall. simpl.
  split; [reflexivity|]. unfold incomplete_message.
  change (filter (λ p, is_unselected st1 p = true) (JS.keys data))
    with (unselectedPositions (useEffect_unselected st1)).
  rewrite Hun. reflexivity.
Qed.

Lemma first_load_starts_afresh_witness :
  ∃ st1 effects,
    useEffect_user true "http://localhost:5000" (Some "V-042")
      (Body (Some Demo.ballot)) Demo.fully_voted
    = Some (st1, effects)
    ∧ error (handleConfirmVote (useEffect_unselected st1)).1
      = "Please make a selection for each position: President, Secretary".
Proof.
  destruct (first_load_starts_afresh "http://localhost:5000" "V-042"
              Demo.ballot Demo.fully_voted eq_refl)
    as (st1 & effects & Heq & _ & _ & _ & _ & _ & Herr).
  - discriminate.
  - exists st1, effects. split; [exact Heq|]. rewrite Herr. reflexivity.
Defined.

End CandidatesExtra.

(** ** Further properties of the activity-log viewer *)
Module ActivityLogExtra.
Import ActivityLogManager ActivityLogView ActivityLogSpec.

(** *** The choices offered by the filter selects *)
Lemma indexOf_here (x : string) (rest : list string) :
  JSSet.indexOf (x :: rest) x = Some 0%nat.
Proof. simpl. rewrite String.eqb_refl. reflexivity. Qed.

Lemma indexOf_app_fresh (pre suf : list string) (x : string) :
  x ∉ pre →
  JSSet.indexOf (pre ++ suf) x = (λ n, length pre + n)%nat <$> JSSet.indexOf suf x.
Proof.
  induction pre as [|y pre IH]; intros Hx; simpl.
  - destruct (JSSet.indexOf suf x); reflexivity.
  - apply not_elem_of_cons in Hx as [Hne Hx].
    destruct (String.eqb y x) eqn:Heq.
    + apply String.eqb_eq in Heq. congruence.
    + rewrite IH by exact Hx. destruct (JSSet.indexOf suf x); reflexivity.
Qed.

Lemma indexOf_seen (pre suf : list string) (x : string) :
  x ∈ pre → ∃ n, JSSet.indexOf (pre ++ suf) x = Some n ∧ (n < length pre)%nat.
Proof.
  induction pre as [|y pre IH]; intros Hx; [inversion Hx|]. simpl.
  destruct (String.eqb y x) eqn:Heq.
  - exists 0%nat. split; [reflexivity|lia].
  - apply elem_of_cons in Hx as [->|Hx].
    + rewrite String.eqb_refl in Heq. discriminate.
    + destruct (IH Hx) as (n & -> & Hn). exists (S n). split; [reflexivity|lia].
Qed.

Lemma indexOf_first (pre suf : list string) (x : string) :
  JSSet.indexOf (pre ++ x :: suf) x = Some (length pre) ↔ x ∉ pre.
Proof.
  split.
  - intros Hi Hx. destruct (indexOf_seen pre (x :: suf) x Hx) as (n & Hn & Hlt).
    rewrite Hn in Hi. injection Hi as ->. lia.
  - intros Hx. rewrite indexOf_app_fresh, indexOf_here by exact Hx.
    simpl. f_equal. lia.
Qed.

(** Filtering [self] by [value && self.indexOf(value) === index] keeps the
    first occurrence of each non-empty value. *)
Lemma first_occurrences (self pre suf : list string) :
  self = (pre ++ suf)%list →
  let kept :=
    JSSet.filter_indexed
      (λ value index,
         JS.truthy value && bool_decide (JSSet.indexOf self value = Some index))
      (length pre) suf in
  NoDup kept
  ∧ ∀ x, x ∈ kept ↔ JS.truthy x = true ∧ x ∈ suf ∧ x ∉ pre.
Proof.
  revert pre. induction suf as [|y suf IH]; intros pre Hself kept.
  - split; [constructor|]. intros x. split; [inversion 1|].
    intros (_ & Hx & _). inversion Hx.
  - assert (Hself' : self = ((pre ++ [y]) ++ suf)%list).
    { rewrite <- app_assoc. exact Hself. }
    specialize (IH (pre ++ [y])%list Hself').
    rewrite length_app in IH. simpl in IH.
    replace (length pre + 1)%nat with (S (length pre)) in IH by lia.
    destruct IH as [IHnd IHin].
    subst kept. simpl.
    destruct (JS.truthy y) eqn:Hy; simpl.
    + case_bool_decide as Hidx; rewrite Hself in Hidx;
        apply indexOf_first in Hidx || (rewrite indexOf_first in Hidx).
      * split.
        -- apply NoDup_cons. split; [|exact IHnd].
           intros Hin. apply IHin in Hin as (_ & _ & Hn).
           apply Hn, elem_of_app. right. left.
        -- intros x. rewrite elem_of_cons, IHin, elem_of_cons, not_elem_of_app.
           rewrite list_elem_of_singleton. split.
           ++ intros [->|(Ht & Hx & Hp & Hne)]; [auto|]. auto.
           ++ intros (Ht & [->|Hx] & Hp); [auto|].
              destruct (decide (x = y)) as [->|Hne]; [auto|]. right. auto.
      * apply dec_stable in Hidx. split; [exact IHnd|].
        intros x. rewrite IHin, elem_of_cons, not_elem_of_app.
        rewrite list_elem_of_singleton. split.
        -- intros (Ht & Hx & Hp & Hne). auto.
        -- intros (Ht & [->|Hx] & Hp); [contradiction|].
           repeat split; try assumption. intros ->. contradiction.
    + split; [exact IHnd|].
      intros x. rewrite IHin, elem_of_cons, not_elem_of_app.
      rewrite list_elem_of_singleton. split.
      * intros (Ht & Hx & Hp & Hne). auto.
      * intros (Ht & [->|Hx] & Hp); [congruence|].
        repeat split; try assumption. intros ->. congruence.
Qed.

Lemma getUniqueUsers_facts (all : list ActivityLog.t) :
  NoDup (getUniqueUsers all)
  ∧ ∀ name, name ∈ getUniqueUsers all
            ↔ name ≠ EmptyString
              ∧ ∃ log u, In log all ∧ ActivityLog.user log = Some u
                         ∧ name = (if JS.truthy (User.fullName u)
                                   then User.fullName u else User.username u).
Proof.
  unfold getUniqueUsers.
  set (labels := map user_label (List.filter _ all)).
  destruct (first_occurrences labels [] labels eq_refl) as [Hnd Hin].
  split; [exact Hnd|]. intros name. simpl in Hin. rewrite Hin.
  assert (Hlabels : name ∈ labels
                    ↔ ∃ log u, In log all ∧ ActivityLog.user log = Some u
                               ∧ name = (if JS.truthy (User.fullName u)
                                         then User.fullName u else User.username u)).
  { unfold labels. rewrite list_elem_of_In, in_map_iff. split.
    - intros (log & Hname & Hlog). apply filter_In in Hlog as [Hlog Hu].
      apply bool_decide_eq_true in Hu. destruct Hu as [u Hu].
      exists log, u. repeat split; [assumption..|].
      rewrite <- Hname. unfold user_label. rewrite Hu. reflexivity.
    - intros (log & u & Hlog & Hu & ->). exists log. split.
      + unfold user_label. rewrite Hu. reflexivity.
      + apply filter_In. split; [exact Hlog|].
        apply bool_decide_eq_true. rewrite Hu. eauto. }
  rewrite Hlabels. split.
  - intros (Ht & H & _). split; [|exact H]. intros ->. discriminate.
  - intros (Hne & H). repeat split; [|exact H|inversion 1].
    destruct name; [congruence|reflexivity].
Qed.

(** X12.  The users offered by the user filter: no name is offered twice,
    none is empty, and a name is offered exactly when it is what some entry
    with a user shows for that user (the full name, or the username when
    the full name is empty). *)
Theorem getUniqueUsers_spec (all : list ActivityLog.t) :
  NoDup (getUniqueUsers all)
  ∧ ∀ name, name ∈ getUniqueUsers all
            ↔ name ≠ EmptyString
              ∧ ∃ log u, In log all ∧ ActivityLog.user log = Some u
                         ∧ name = (if JS.truthy (User.fullName u)
                                   then User.fullName u else User.username u).
Proof. apply getUniqueUsers_facts. Qed.

Lemma add_spec (seen : list string) (value : string) :
  NoDup seen →
  NoDup (JSSet.add seen value)
  ∧ ∀ x, x ∈ JSSet.add seen value ↔ x ∈ seen ∨ x = value.
Proof.
  intros Hnd. unfold JSSet.add.
  destruct (existsb (String.eqb value) seen) eqn:Hex.
  - split; [exact Hnd|]. intros x. split; [auto|]. intros [H| ->]; [exact H|].
    apply existsb_exists in Hex as (y & Hy & Heq).
    apply String.eqb_eq in Heq. subst y. apply list_elem_of_In, Hy.
  - split.
    + apply NoDup_app. split; [exact Hnd|]. split; [|apply NoDup_singleton].
      intros x Hx Hx'. apply list_elem_of_singleton in Hx'. subst x.
      apply not_true_iff_false in Hex. apply Hex, existsb_exists.
      exists value. split; [apply list_elem_of_In, Hx|apply String.eqb_refl].
    + intros x. rewrite elem_of_app, list_elem_of_singleton. reflexivity.
Qed.

Lemma foldl_add_spec (values seen : list string) :
  NoDup seen →
  NoDup (foldl JSSet.add seen values)
  ∧ ∀ x, x ∈ foldl JSSet.add seen values ↔ x ∈ seen ∨ x ∈ values.
Proof.
  revert seen. induction values as [|v values IH]; intros seen Hnd; simpl.
  - split; [exact Hnd|]. intros x. rewrite elem_of_nil. tauto.
  - destruct (add_spec seen v Hnd) as [Hnd' Hin'].
    destruct (IH _ Hnd') as [Hnd'' Hin'']. split; [exact Hnd''|].
    intros x. rewrite Hin'', Hin', elem_of_cons. tauto.
Qed.

Lemma spread_spec (values : list string) :
  NoDup (JSSet.spread values) ∧ ∀ x, x ∈ JSSet.spread values ↔ x ∈ values.
Proof.
  destruct (foldl_add_spec values [] (NoDup_nil_2)) as [Hnd Hin].
  split; [exact Hnd|]. intros x. rewrite Hin, elem_of_nil. tauto.
Qed.

Lemma getUniqueActions_facts (all : list ActivityLog.t) :
  NoDup (getUniqueActions all)
  ∧ (∀ a, a ∈ getUniqueActions all ↔ ∃ log, In log all ∧ ActivityLog.action log = a)
  ∧ NoDup (getUniqueEntities all)
  ∧ (∀ e, e ∈ getUniqueEntities all ↔ ∃ log, In log all ∧ ActivityLog.entity log = e).
Proof.
  unfold getUniqueActions, getUniqueEntities.
  destruct (spread_spec (map ActivityLog.action all)) as [Hna Hia].
  destruct (spread_spec (map ActivityLog.entity all)) as [Hne Hie].
  repeat split; try assumption.
  - rewrite Hia, list_elem_of_In, in_map_iff. intros (log & <- & Hlog). eauto.
  - intros (log & Hlog & <-). rewrite Hia, list_elem_of_In. apply in_map, Hlog.
  - rewrite Hie, list_elem_of_In, in_map_iff. intros (log & <- & Hlog). eauto.
  - intros (log & Hlog & <-). rewrite Hie, list_elem_of_In. apply in_map, Hlog.
Qed.

(** X13.  The actions and the entities offered by their filters: each list
    is free of repetitions and holds exactly the actions (the entities)
    that occur in the full list. *)
Theorem getUniqueActions_spec (all : list ActivityLog.t) :
  NoDup (getUniqueActions all)
  ∧ (∀ a, a ∈ getUniqueActions all ↔ ∃ log, In log all ∧ ActivityLog.action log = a)
  ∧ NoDup (getUniqueEntities all)
  ∧ (∀ e, e ∈ getUniqueEntities all ↔ ∃ log, In log all ∧ ActivityLog.entity log = e).
Proof. apply getUniqueActions_facts. Qed.

(** *** Consequences of the pipeline *)
Section Consequences.
Variable canViewLogs canDeleteLogs : bool.
Variable apiUrl : string.
Variable tza : Z.
Variable Date_parse : string → JSDate.TimeValue.
Variable formatTimestamp : string → string.

Local Abbreviation step :=
  (step canViewLogs canDeleteLogs apiUrl tza Date_parse formatTimestamp).
Local Abbreviation run :=
  (run canViewLogs canDeleteLogs apiUrl tza Date_parse formatTimestamp).
Local Abbreviation handle :=
  (handle canViewLogs canDeleteLogs apiUrl formatTimestamp).
Local Abbreviation applyFilters := (applyFilters tza Date_parse).
Local Abbreviation kept := (kept tza Date_parse).
Local Abbreviation spec_structured := (spec_structured tza Date_parse).

Lemma applyFilters_kept (all : list ActivityLog.t) (search : string)
    (f : Filters.t) :
  applyFilters all search f ≡ₚ List.filter (kept search f) all.
Proof. rewrite applyFilters_spec. apply spec_pipeline_kept. Qed.

Lemma applyFilters_In (all : list ActivityLog.t) (search : string)
    (f : Filters.t) (log : ActivityLog.t) :
  In log (applyFilters all search f) ↔ In log all ∧ kept search f log = true.
Proof.
  rewrite <- filter_In, <- !list_elem_of_In.
  split; intros H; [rewrite <- applyFilters_kept|rewrite applyFilters_kept];
    exact H.
Qed.

Lemma applyFilters_nil (all : list ActivityLog.t) (search : string)
    (f : Filters.t) :
  (∀ log, In log all → kept search f log = false) →
  applyFilters all search f = [].
Proof.
  intros Hnone. destruct (applyFilters all search f) as [|log rest] eqn:Heq;
    [reflexivity|].
  assert (Hin : In log (applyFilters all search f)) by (rewrite Heq; left; reflexivity).
  apply applyFilters_In in Hin as [Hin Hk]. rewrite (Hnone log Hin) in Hk.
  discriminate.
Qed.

(** X14.  Every choice the three selects offer finds something: with no
    search term and no other filter, choosing an offered user, action or
    entity yields a displayed list that is not empty. *)
Theorem offered_choice_finds_entries (all : list ActivityLog.t) (choice : string)
    (name : Filters.Name)
    (Hoffered :
       match name with
       | Filters.User => choice ∈ getUniqueUsers all
       | Filters.Action => choice ∈ getUniqueActions all
       | Filters.Entity => choice ∈ getUniqueEntities all
       | _ => False
       end) :
  applyFilters all EmptyString (Filters.set name choice Filters.cleared) ≠ [].
Proof.
  assert (Hlog : ∃ log, In log all
                        ∧ kept EmptyString (Filters.set name choice Filters.cleared) log
                          = true).
  { unfold ActivityLogManager.kept, ActivityLogManager.spec_structured, when_set.
    destruct name; try contradiction; simpl.
    - apply getUniqueUsers_facts in Hoffered as (_ & log & u & Hlog & Hu & ->).
      exists log. split; [exact Hlog|]. rewrite spec_search_empty. simpl.
      rewrite !andb_true_r. apply orb_true_iff. right.
      unfold by_user. rewrite Hu.
      destruct (JS.truthy (User.fullName u)); rewrite String.eqb_refl;
        [apply orb_true_r|reflexivity].
    - apply getUniqueActions_facts in Hoffered as (log & Hlog & <-).
      exists log. split; [exact Hlog|]. rewrite spec_search_empty. simpl.
      rewrite !andb_true_r. unfold by_action. rewrite String.eqb_refl.
      apply orb_true_r.
    - apply getUniqueActions_facts in Hoffered as (log & Hlog & <-).
      exists log. split; [exact Hlog|]. rewrite spec_search_empty. simpl.
      rewrite !andb_true_r. unfold by_entity. rewrite String.eqb_refl.
      apply orb_true_r. }
  destruct Hlog as (log & Hlog & Hk). intros Hnil.
  assert (Hin : In log (applyFilters all EmptyString
                          (Filters.set name choice Filters.cleared))).
  { apply applyFilters_In. auto. }
  rewrite Hnil in Hin. exact Hin.
Qed.

Ltac falsify :=
  repeat (rewrite ?andb_false_r, ?andb_false_l); try reflexivity.

Lemma filter_sublist {A} (p : A → bool) (l : list A) :
  List.filter p l `sublist_of` l.
Proof.
  induction l as [|x l IH]; simpl; [constructor|].
  destruct (p x); constructor; exact IH.
Qed.

Lemma reachable_in_sync (evs : list Event) :
  in_sync tza Date_parse (run initial evs).
Proof. apply run_in_sync, initial_in_sync. Qed.

(** X15.  With an empty search term and no filter set, every entry of the
    full list is displayed (the displayed list is a rearrangement of the
    full list); and pressing Clear Filters brings the viewer there from any
    state it can be in, the full list being left as it is. *)
Theorem without_filters_all_shown (evs : list Event) :
  let st := run initial evs in
  let st' := step st ClearFilters in
  (searchTerm st = EmptyString → filters st = Filters.cleared →
   filteredLogs st ≡ₚ logs st)
  ∧ logs st' = logs st
  ∧ filteredLogs st' ≡ₚ logs st.
Proof.
  intros st st'.
  assert (Hall : ∀ all, spec_pipeline tza Date_parse all EmptyString Filters.cleared
                        ≡ₚ all).
  { intros all. rewrite spec_pipeline_kept, filter_all; [reflexivity|].
    intros log. unfold ActivityLogManager.kept.
    rewrite spec_search_empty. reflexivity. }
  assert (Hst' : in_sync tza Date_parse st').
  { apply step_in_sync, reachable_in_sync. }
  pose proof (useEffect_filter_cells tza Date_parse (handle ClearFilters st).1)
    as Hcells.
  assert (El : logs st' = logs st) by exact (proj1 Hcells).
  assert (Es : searchTerm st' = EmptyString) by exact (proj1 (proj2 Hcells)).
  assert (Ef : filters st' = Filters.cleared) by exact (proj2 (proj2 Hcells)).
  split; [|split].
  - intros Hs Hf. rewrite (reachable_in_sync evs : filteredLogs st = _).
    fold st. rewrite Hs, Hf. apply Hall.
  - exact El.
  - rewrite Hst', El, Es, Ef. apply Hall.
Qed.

(** X16.  The status line never claims more than there is: in every state
    the viewer can be in, each displayed entry is an entry of the full
    list, no more often than it occurs there, so the number displayed is at
    most the number of logs. *)
Theorem displayed_within_logs (evs : list Event) :
  let st := run initial evs in
  filteredLogs st ⊆+ logs st
  ∧ (length (filteredLogs st) ≤ length (logs st))%nat.
Proof.
  intros st.
  assert (H : filteredLogs st ⊆+ logs st).
  { rewrite (reachable_in_sync evs : filteredLogs st = _). fold st.
    rewrite spec_pipeline_kept. apply sublist_submseteq, filter_sublist. }
  split; [exact H|apply submseteq_length, H].
Qed.

(** X19.  A date the browser cannot read hides everything: when the from
    date or the to date is set to a string that parses to an invalid date,
    the displayed list is empty.  And whenever one of the two date filters
    is set, no entry with an invalid timestamp is displayed. *)
Theorem invalid_date_hides (all : list ActivityLog.t) (search : string)
    (f : Filters.t) :
  (JS.truthy (Filters.fromDate f) = true
   → Date_parse (Filters.fromDate f) = None → applyFilters all search f = [])
  ∧ (JS.truthy (Filters.toDate f) = true
     → Date_parse (Filters.toDate f) = None → applyFilters all search f = [])
  ∧ (JS.truthy (Filters.fromDate f) = true ∨ JS.truthy (Filters.toDate f) = true
     → ∀ log, In log (applyFilters all search f)
              → is_Some (Date_parse (ActivityLog.timestamp log))).
Proof.
  split; [|split].
  - intros Ht Hp. apply applyFilters_nil. intros log _.
    assert (Hf : when_set (Filters.fromDate f) (from_date Date_parse) log = false).
    { unfold when_set, from_date, JSDate.ge, JSDate.le. rewrite Ht, Hp.
      reflexivity. }
    unfold ActivityLogManager.kept, ActivityLogManager.spec_structured.
    rewrite Hf. falsify.
  - intros Ht Hp. apply applyFilters_nil. intros log _.
    assert (Hf : when_set (Filters.toDate f) (to_date tza Date_parse) log = false).
    { unfold when_set, to_date, end_of_day, JSDate.le. rewrite Ht, Hp. simpl.
      destruct (Date_parse (ActivityLog.timestamp log)); reflexivity. }
    unfold ActivityLogManager.kept, ActivityLogManager.spec_structured.
    rewrite Hf. falsify.
  - intros Hset log Hlog. apply applyFilters_In in Hlog as [_ Hk].
    unfold ActivityLogManager.kept, ActivityLogManager.spec_structured, when_set in Hk.
    rewrite !andb_true_iff in Hk. destruct Hk as (_ & (_ & Hfrom) & Hto).
    destruct (Date_parse (ActivityLog.timestamp log)) as [t|] eqn:Hts; [eauto|].
    exfalso. destruct Hset as [Ht|Ht]; rewrite Ht in *; simpl in *.
    + unfold from_date, JSDate.ge, JSDate.le in Hfrom. rewrite Hts in Hfrom.
      destruct (Date_parse (Filters.fromDate f)); discriminate.
    + unfold to_date, JSDate.le in Hto. rewrite Hts in Hto. discriminate.
Qed.

(** X20.  A date range turned around shows nothing: when both dates are
    set and the from date lies after the upper bound computed from the to
    date, the displayed list is empty. *)
Theorem inverted_range_is_empty (all : list ActivityLog.t) (search : string)
    (f : Filters.t) (from upto : Z)
    (Hfrom : JS.truthy (Filters.fromDate f) = true)
    (Hto : JS.truthy (Filters.toDate f) = true)
    (Hparse : Date_parse (Filters.fromDate f) = Some from)
    (Hend : end_of_day tza Date_parse (Filters.toDate f) = Some upto)
    (Hinv : (upto < from)%Z) :
  applyFilters all search f = [].
Proof.
  apply applyFilters_nil. intros log _.
  assert (Hf : when_set (Filters.fromDate f) (from_date Date_parse) log
               && when_set (Filters.toDate f) (to_date tza Date_parse) log = false).
  { unfold when_set, from_date, to_date, JSDate.ge, JSDate.le.
    rewrite Hfrom, Hto, Hparse, Hend. simpl.
    destruct (Date_parse (ActivityLog.timestamp log)) as [t|]; [|reflexivity].
    destruct (Z.leb_spec from t), (Z.leb_spec t upto); try reflexivity. lia. }
  unfold ActivityLogManager.kept, ActivityLogManager.spec_structured.
  rewrite <- (andb_assoc _ (when_set (Filters.fromDate f) _ log)), Hf. falsify.
Qed.

(** X21.  The search of the log viewer ignores letter case: two terms that
    differ only in the case of their letters display the same list.  And
    an entry that passes the structured filters is displayed whenever the
    term is, case apart, the whole text of its action, of its entity or of
    its details. *)
Theorem log_search_ignores_case (all : list ActivityLog.t)
    (term term' : string) (f : Filters.t)
    (Hcase : JS.toLowerCase term = JS.toLowerCase term') :
  applyFilters all term f = applyFilters all term' f
  ∧ (∀ log, In log all → spec_structured f log = true →
       JS.toLowerCase term' = JS.toLowerCase (ActivityLog.action log)
       ∨ JS.toLowerCase term' = JS.toLowerCase (ActivityLog.entity log)
       ∨ JS.toLowerCase term' = JS.toLowerCase (ActivityLog.details log) →
       In log (applyFilters all term f)).
Proof.
  assert (Hsame : ∀ log, spec_search term log = spec_search term' log).
  { intros log. unfold spec_search. rewrite Hcase. reflexivity. }
  split.
  - rewrite !applyFilters_spec. unfold ActivityLogManager.spec_pipeline.
    do 2 f_equal. apply filter_ext, Hsame.
  - intros log Hlog Hf Hfield. apply applyFilters_In. split; [exact Hlog|].
    unfold ActivityLogManager.kept. rewrite Hf, andb_true_r, Hsame.
    unfold spec_search. apply existsb_exists.
    destruct Hfield as [H|[H|H]]; rewrite H;
      [exists (ActivityLog.action log)|exists (ActivityLog.entity log)
      |exists (ActivityLog.details log)];
      (split; [apply in_or_app; right; simpl; auto
              |apply CandidatesExtra.includes_refl]).
Qed.

Lemma filter_insert (p : ActivityLog.t → bool) (t : Z) (x : ActivityLog.t)
    (l : list ActivityLog.t) :
  (∀ log, p log = true ↔ Date_parse (ActivityLog.timestamp log) = Some t) →
  List.filter p (JSArray.insert (newest_first Date_parse) x l)
  = List.filter p (x :: l).
Proof.
  intros Hp. induction l as [|y l IH]; [reflexivity|].
  simpl JSArray.insert.
  destruct (JSArray.keeps_order (newest_first Date_parse) x y) eqn:Hk;
    [reflexivity|].
  change (List.filter p (y :: JSArray.insert (newest_first Date_parse) x l))
    with (if p y then y :: List.filter p (JSArray.insert (newest_first Date_parse) x l)
          else List.filter p (JSArray.insert (newest_first Date_parse) x l)).
  rewrite IH. simpl.
  destruct (p x) eqn:Hx, (p y) eqn:Hy; try reflexivity.
  exfalso. apply Hp in Hx, Hy.
  unfold JSArray.keeps_order, newest_first in Hk. rewrite Hx, Hy in Hk.
  simpl in Hk. rewrite Z.sub_diag in Hk. discriminate.
Qed.

Lemma filter_sort (p : ActivityLog.t → bool) (t : Z) (l : list ActivityLog.t) :
  (∀ log, p log = true ↔ Date_parse (ActivityLog.timestamp log) = Some t) →
  List.filter p (JSArray.sort (newest_first Date_parse) l) = List.filter p l.
Proof.
  intros Hp. induction l as [|x l IH]; [reflexivity|].
  simpl JSArray.sort. rewrite (filter_insert p t) by exact Hp.
  simpl. rewrite IH. reflexivity.
Qed.

(** X22.  Entries stamped with the same instant are displayed in the order
    they have in the full list: for timestamps that are all valid, the
    displayed entries of any one instant are, in this order, the entries of
    that instant in the full list that pass the search and the filters. *)
Theorem same_instant_keeps_order (all : list ActivityLog.t) (search : string)
    (f : Filters.t) (t : Z)
    (Hvalid : Forall (valid_timestamp Date_parse) all) :
  let at_t := λ log, bool_decide (Date_parse (ActivityLog.timestamp log) = Some t) in
  List.filter at_t (applyFilters all search f)
  = List.filter at_t (List.filter (kept search f) all).
Proof.
  intros at_t. rewrite applyFilters_spec.
  unfold ActivityLogManager.spec_pipeline.
  rewrite (filter_sort at_t t) by (intros log; apply bool_decide_eq_true).
  f_equal. exact (filter_twice _ _ all).
Qed.

End Consequences.

Lemma offered_choice_finds_entries_witness :
  applyFilters Demo.accra JSDate.parse Demo.trail EmptyString
    (Filters.set Filters.User "Ama Mensah" Filters.cleared) ≠ [].
Proof.
  apply (offered_choice_finds_entries Demo.accra JSDate.parse Demo.trail
           "Ama Mensah" Filters.User).
  vm_compute. left.
Defined.

Lemma inverted_range_is_empty_witness :
  applyFilters Demo.accra JSDate.parse Demo3.trail EmptyString Demo3.inverted = [].
Proof.
  apply (inverted_range_is_empty Demo.accra JSDate.parse Demo3.trail EmptyString
           Demo3.inverted 1736985600000 1736899199000);
    reflexivity.
Defined.

Lemma log_search_ignores_case_witness :
  applyFilters Demo.accra JSDate.parse Demo.trail "CREATE" Filters.cleared
  = applyFilters Demo.accra JSDate.parse Demo.trail "create" Filters.cleared
  ∧ In Demo.noon_entry
       (applyFilters Demo.accra JSDate.parse Demo.trail "CREATE" Filters.cleared).
Proof.
  destruct (log_search_ignores_case Demo.accra JSDate.parse Demo.trail
              "CREATE" "create" Filters.cleared eq_refl) as [Heq Hown].
  split; [exact Heq|].
  apply Hown; [right; left; reflexivity|reflexivity|left; reflexivity].
Defined.

Lemma same_instant_keeps_order_witness :
  List.filter
    (λ log, bool_decide (JSDate.parse (ActivityLog.timestamp log)
                         = Some 1736942400000%Z))
    (applyFilters Demo.accra JSDate.parse Demo3.trail EmptyString Filters.cleared)
  = [Demo.noon_entry; Demo3.twin_entry].
Proof.
  rewrite (same_instant_keeps_order Demo.accra JSDate.parse Demo3.trail
             EmptyString Filters.cleared 1736942400000).
  - reflexivity.
  - repeat constructor; vm_compute; eauto.
Defined.

(** *** Buttons and permissions *)

(** X17.  The Clear Filters buttons are disabled exactly when pressing
    them would change nothing: [disabled] holds if and only if
    [handleClearFilters] returns the state it is given. *)
Theorem clear_disabled_iff_noop (st : State) :
  clear_disabled st = true ↔ handleClearFilters st = st.
Proof.
  unfold clear_disabled, handleClearFilters, values.
  destruct st as [l fl s il e n sf [u a en fd td]]; simpl.
  unfold setSearchTerm, setFilters; simpl.
  rewrite andb_true_iff, !negb_true_iff, !orb_false_iff. split.
  - intros ((Hu & Ha & He & Hf & Ht & _) & Hs).
    apply truthy_false in Hu, Ha, He, Hf, Ht, Hs. subst. reflexivity.
  - intros [= <- <- <- <- <- <-]. repeat split.
Qed.

Lemma without_view_step (canDeleteLogs : bool) (apiUrl : string) (tza : Z)
    (Date_parse : string → JSDate.TimeValue)
    (formatTimestamp : string → string) (st : State) (ev : Event) :
  logs st = [] → filteredLogs st = [] →
  let st' := step false canDeleteLogs apiUrl tza Date_parse formatTimestamp st ev in
  logs st' = [] ∧ filteredLogs st' = []
  ∧ ∀ url, ¬ In (Fetch "GET" url)
               (handle false canDeleteLogs apiUrl formatTimestamp ev st).2.
Proof.
  intros Hl Hf st'.
  assert (Hh : logs (handle false canDeleteLogs apiUrl formatTimestamp ev st).1 = []
               ∧ filteredLogs (handle false canDeleteLogs apiUrl formatTimestamp ev st).1 = []
               ∧ ∀ url, ¬ In (Fetch "GET" url)
                            (handle false canDeleteLogs apiUrl formatTimestamp ev st).2).
  { destruct ev as [r|v|n v| | |c r|[]| |today];
      try (unfold handle, handleClearLogs; destruct canDeleteLogs, c, r);
      simpl;
      (split; [assumption || reflexivity
              |split; [assumption || reflexivity|]]);
      intros url H; repeat (destruct H as [H|H]; [discriminate|]); exact H. }
  destruct Hh as (Hl' & Hf' & Hget). split; [|split; [|exact Hget]].
  - unfold st', step. rewrite (proj1 (useEffect_filter_cells _ _ _)). exact Hl'.
  - unfold st', step, useEffect_filter. rewrite Hl'. exact Hf'.
Qed.

(** X18.  Without the view permission the viewer never holds or asks for
    log data: after any sequence of events the full list and the displayed
    list are empty, no GET request for the logs has been made, and what is
    rendered is the access-restricted notice. *)
Theorem without_view_permission (canDeleteLogs : bool) (apiUrl : string)
    (tza : Z) (Date_parse : string → JSDate.TimeValue)
    (formatTimestamp : string → string) (evs : list Event) :
  let st := run false canDeleteLogs apiUrl tza Date_parse formatTimestamp initial evs in
  logs st = [] ∧ filteredLogs st = []
  ∧ (∀ url, ¬ In (Fetch "GET" url)
               (trace false canDeleteLogs apiUrl tza Date_parse formatTimestamp
                  initial evs))
  ∧ render false canDeleteLogs st = AccessRestricted.
Proof.
  intros st.
  assert (H : ∀ st0, logs st0 = [] → filteredLogs st0 = [] →
              logs (run false canDeleteLogs apiUrl tza Date_parse formatTimestamp st0 evs) = []
              ∧ filteredLogs (run false canDeleteLogs apiUrl tza Date_parse formatTimestamp st0 evs) = []
              ∧ ∀ url, ¬ In (Fetch "GET" url)
                           (trace false canDeleteLogs apiUrl tza Date_parse
                              formatTimestamp st0 evs)).
  { induction evs as [|ev evs IH]; intros st0 Hl Hf.
    - split; [assumption|split; [assumption|intros url []]].
    - destruct (without_view_step canDeleteLogs apiUrl tza Date_parse
                  formatTimestamp st0 ev Hl Hf) as (Hl' & Hf' & Hget).
      destruct (IH _ Hl' Hf') as (Hl'' & Hf'' & Hget'').
      split; [exact Hl''|split; [exact Hf''|]].
      intros url Hin. simpl in Hin. apply in_app_or in Hin as [Hin|Hin].
      + exact (Hget url Hin).
      + exact (Hget'' url Hin). }
  destruct (H initial eq_refl eq_refl) as (Hl & Hf & Hget).
  split; [exact Hl|split; [exact Hf|split; [exact Hget|reflexivity]]].
Qed.

(** *** The bounds of the date range *)

(** X23.  Which entries the two date filters keep, for a chosen day given
    as a date-only string (midnight UTC of day [day]) and a browser whose
    offset from UTC is a whole number of seconds within a day.  The from
    date keeps the entries stamped at or after midnight UTC of the day.
    The to date keeps the entries whose local time is at most 23:59:59 of
    a local day: the chosen day on and east of Greenwich, the day before
    it west of Greenwich. *)
Theorem date_range_bounds (tza : Z) (Date_parse : string → JSDate.TimeValue)
    (chosen : string) (day : Z) (log : ActivityLog.t)
    (Hchosen : Date_parse chosen = Some (JSDate.MakeDate day 0))
    (Hzone : (- JSDate.msPerDay ≤ tza < JSDate.msPerDay)%Z)
    (Hseconds : (tza mod 1000 = 0)%Z) :
  (from_date Date_parse chosen log = true
   ↔ ∃ t, Date_parse (ActivityLog.timestamp log) = Some t
          ∧ (JSDate.MakeDate day 0 ≤ t)%Z)
  ∧ (to_date tza Date_parse chosen log = true
     ↔ ∃ t, Date_parse (ActivityLog.timestamp log) = Some t
            ∧ (t + tza
               ≤ JSDate.MakeDate (if (0 <=? tza)%Z then day else day - 1)
                   (JSDate.MakeTime 23 59 59 0))%Z).
Proof.
  split.
  - rewrite from_date_spec, Hchosen. split.
    + intros (t & t0 & Ht & [= <-] & Hle). eauto.
    + intros (t & Ht & Hle). eauto.
  - rewrite to_date_spec.
    destruct (Z.leb_spec 0 tza) as [Hpos|Hneg].
    + rewrite (end_of_day_east tza Date_parse chosen day Hchosen) by (lia || assumption).
      split.
      * intros (t & t1 & Ht & [= <-] & Hle). exists t. split; [exact Ht|lia].
      * intros (t & Ht & Hle). exists t. eexists. split; [exact Ht|].
        split; [reflexivity|lia].
    + rewrite (end_of_day_west tza Date_parse chosen day Hchosen) by (lia || assumption).
      split.
      * intros (t & t1 & Ht & [= <-] & Hle). exists t. split; [exact Ht|lia].
      * intros (t & Ht & Hle). exists t. eexists. split; [exact Ht|].
        split; [reflexivity|lia].
Qed.

Lemma date_range_bounds_witness :
  to_date Demo.bogota JSDate.parse "2025-01-15" Demo.earlier_entry = true
  ∧ ¬ (∃ t, JSDate.parse (ActivityLog.timestamp Demo.noon_entry) = Some t
            ∧ (t + Demo.bogota
               ≤ JSDate.MakeDate (20103 - 1) (JSDate.MakeTime 23 59 59 0))%Z).
Proof.
  split.
  - apply (date_range_bounds Demo.bogota JSDate.parse "2025-01-15" 20103
             Demo.earlier_entry eq_refl); [vm_compute; split; congruence|reflexivity|].
    exists 1736843400000%Z. split; [reflexivity|]. vm_compute. congruence.
  - intros H.
    apply (date_range_bounds Demo.bogota JSDate.parse "2025-01-15" 20103
             Demo.noon_entry eq_refl) in H;
      [discriminate|vm_compute; split; congruence|reflexivity].
Defined.

End ActivityLogExtra.
